(** * Plister: plist to JSON conversion (src/plister.py)

    A shallow embedding of the conversion pipeline of [plister.py] and of the
    parts of the Python standard library it calls ([posixpath], [base64],
    [datetime.isoformat], [json.dump], [os.makedirs], [open]).

    Conventions.
    - A Python [str] or [bytes] object is a Rocq [string], read as the
      sequence of its UTF-8 bytes.  Byte-wise comparison of UTF-8 text is
      code-point comparison, which is the order Python's [sorted] uses on
      [str].
    - [os.path] is [posixpath] (the tool targets macOS property lists; paths
      use the separator [/]).
    - Stateful code runs in the monad [M]: a function of the [world] (file
      system, standard streams, system-call log) that returns a value or
      raises a Python exception.
    - [plistlib.load] is a parameter of the pipeline: its decoding of the
      XML and binary formats is not part of [plister.py].  [argparse] and
      the progress bar of [tqdm] are outside the model. *)

From Stdlib Require Import String Ascii List ZArith Lia Bool Arith.
From Stdlib Require Import DecimalString Sorting.Sorted Sorting.Permutation.
Import ListNotations.
Set Warnings "-register-all".
Open Scope string_scope.
Open Scope Z_scope.

(** ** Python string primitives *)

Module pystr.

(** The line feed character. *)
Definition LF : string := String (ascii_of_nat 10) EmptyString.

(** The double quote character. *)
Definition DQ : string := String (ascii_of_nat 34) EmptyString.

Definition truthy (s : string) : bool :=
  match s with EmptyString => false | String _ _ => true end.

(** [s.startswith(p)] *)
Definition startswith (s p : string) : bool := String.prefix p s.

Fixpoint rev_acc (s acc : string) : string :=
  match s with
  | EmptyString => acc
  | String c r => rev_acc r (String c acc)
  end.

Definition rev (s : string) : string := rev_acc s EmptyString.

(** [s.endswith(p)] *)
Definition endswith (s p : string) : bool := String.prefix (rev p) (rev s).

(** [c.lower()] on the ASCII range; bytes of multi-byte UTF-8 sequences are
    left as they are. *)
Definition lower_ascii (c : ascii) : ascii :=
  let n := nat_of_ascii c in
  if (andb (Nat.leb 65 n) (Nat.leb n 90)) then ascii_of_nat (n + 32) else c.

Fixpoint lower (s : string) : string :=
  match s with
  | EmptyString => EmptyString
  | String c r => String (lower_ascii c) (lower r)
  end.

(** [s.rfind(c)]: the highest index of [c] in [s], or [-1]. *)
Fixpoint rfind (c : ascii) (s : string) : Z :=
  match s with
  | EmptyString => -1
  | String d r =>
      let i := rfind c r in
      if 0 <=? i then i + 1
      else if Ascii.eqb d c then 0 else -1
  end.

(** The slice [s[i:j]] for [0 <= i]. *)
Definition slice (s : string) (i j : Z) : string :=
  String.substring (Z.to_nat i) (Z.to_nat (j - i)) s.

Definition len (s : string) : Z := Z.of_nat (String.length s).

(** [s.split(sep)] for a one-character separator. *)
Fixpoint split (sep : ascii) (s : string) : list string :=
  match s with
  | EmptyString => [EmptyString]
  | String c r =>
      if Ascii.eqb c sep then EmptyString :: split sep r
      else match split sep r with
           | [] => [String c EmptyString]
           | h :: t => String c h :: t
           end
  end.

(** [sep.join(parts)] *)
Fixpoint join (sep : string) (parts : list string) : string :=
  match parts with
  | [] => EmptyString
  | [p] => p
  | p :: rest => p ++ sep ++ join sep rest
  end.

(** [s.rstrip(c)] *)
Fixpoint rstrip (c : ascii) (s : string) : string :=
  match s with
  | EmptyString => EmptyString
  | String d r =>
      match rstrip c r with
      | EmptyString => if Ascii.eqb d c then EmptyString else String d EmptyString
      | r' => String d r'
      end
  end.

(** [c * n] *)
Fixpoint repeat (c : ascii) (n : nat) : string :=
  match n with
  | O => EmptyString
  | S k => String c (repeat c k)
  end.

(** [str(n)] for an [int]. *)
Definition of_int (z : Z) : string := NilZero.string_of_int (Z.to_int z).

End pystr.

(** ** Exceptions and results *)

Inductive exn : Type :=
| InvalidFileException                 (* plistlib.InvalidFileException *)
| FileNotFoundError (msg : string)
| IsADirectoryError (msg : string)
| NotADirectoryError (msg : string)
| FileExistsError (msg : string)
| TypeError (msg : string)
| ValueError (msg : string)
| OtherException (msg : string)        (* any other subclass of Exception *)
| KeyboardInterrupt.                   (* a BaseException that is no Exception *)

(** [isinstance(e, Exception)] *)
Definition is_Exception (e : exn) : bool :=
  match e with
  | KeyboardInterrupt => false
  | _ => true
  end.

(** [str(e)], as interpolated by [f"{e}"]. *)
Definition exn_str (e : exn) : string :=
  match e with
  | InvalidFileException => "Invalid file"
  | FileNotFoundError m | IsADirectoryError m | NotADirectoryError m
  | FileExistsError m | TypeError m | ValueError m | OtherException m => m
  | KeyboardInterrupt => EmptyString
  end.

Inductive result (A : Type) : Type :=
| Return (a : A)
| Raise (e : exn).
Arguments Return {A} a.
Arguments Raise {A} e.

(** ** posixpath *)

Module posixpath.

Definition sep : ascii := "/"%char.

Definition isabs (p : string) : bool := pystr.startswith p "/".

(** [posixpath.join(a, b)] *)
Definition join (a b : string) : string :=
  if pystr.startswith b "/" then b
  else if orb (negb (pystr.truthy a)) (pystr.endswith a "/") then a ++ b
  else a ++ "/" ++ b.

(** [posixpath.join(a, *p)] *)
Definition join_all (a : string) (p : list string) : string :=
  fold_left join p a.

(** [posixpath.split(p)] *)
Definition split (p : string) : string * string :=
  let i := pystr.rfind sep p + 1 in
  let head := pystr.slice p 0 i in
  let tail := pystr.slice p i (pystr.len p) in
  let head :=
    if andb (pystr.truthy head)
            (negb (String.eqb head (pystr.repeat sep (String.length head))))
    then pystr.rstrip sep head else head in
  (head, tail).

Definition dirname (p : string) : string := fst (split p).

Definition basename (p : string) : string :=
  let i := pystr.rfind sep p + 1 in
  pystr.slice p i (pystr.len p).

(** The scan of [genericpath._splitext] over the leading dots of the file
    name: is there a character other than [.] in [p[i:j]]? *)
Fixpoint has_non_dot (s : string) : bool :=
  match s with
  | EmptyString => false
  | String c r => if Ascii.eqb c "."%char then has_non_dot r else true
  end.

(** [posixpath.splitext(p)] *)
Definition splitext (p : string) : string * string :=
  let sepIndex := pystr.rfind sep p in
  let dotIndex := pystr.rfind "."%char p in
  if (sepIndex <? dotIndex)
     && has_non_dot (pystr.slice p (sepIndex + 1) dotIndex)
  then (pystr.slice p 0 dotIndex, pystr.slice p dotIndex (pystr.len p))
  else (p, EmptyString).

(** The component loop of [posixpath.normpath]. *)
Fixpoint normpath_comps (initial_slashes : nat) (comps new_comps : list string)
  : list string :=
  match comps with
  | [] => new_comps
  | comp :: rest =>
      if orb (String.eqb comp EmptyString) (String.eqb comp ".")
      then normpath_comps initial_slashes rest new_comps
      else if orb (negb (String.eqb comp ".."))
                (orb (andb (Nat.eqb initial_slashes 0)
                           (match new_comps with [] => true | _ => false end))
                     (match List.rev new_comps with
                      | last :: _ => String.eqb last ".."
                      | [] => false
                      end))
      then normpath_comps initial_slashes rest (new_comps ++ [comp])%list
      else normpath_comps initial_slashes rest (removelast new_comps)
  end.

(** [posixpath.normpath(path)] *)
Definition normpath (path : string) : string :=
  if String.eqb path EmptyString then "."
  else
    let initial_slashes :=
      if pystr.startswith path "/" then
        if andb (pystr.startswith path "//") (negb (pystr.startswith path "///"))
        then 2%nat else 1%nat
      else 0%nat in
    let comps := pystr.split sep path in
    let new_comps := normpath_comps initial_slashes comps [] in
    let path := pystr.join "/" new_comps in
    let path := pystr.repeat sep initial_slashes ++ path in
    if pystr.truthy path then path else ".".

(** [posixpath.abspath(path)], with [os.getcwd()] given. *)
Definition abspath (cwd path : string) : string :=
  normpath (if isabs path then path else join cwd path).

(** The length of the common prefix of two component lists
    ([genericpath.commonprefix] on a pair of lists). *)
Fixpoint commonprefix_len (a b : list string) : nat :=
  match a, b with
  | x :: a', y :: b' => if String.eqb x y then S (commonprefix_len a' b') else O
  | _, _ => O
  end.

(** [posixpath.relpath(path, start)] *)
Definition relpath (cwd path start : string) : result string :=
  if negb (pystr.truthy path) then Raise (ValueError "no path specified")
  else
    let start_list := filter pystr.truthy (pystr.split sep (abspath cwd start)) in
    let path_list := filter pystr.truthy (pystr.split sep (abspath cwd path)) in
    let i := commonprefix_len start_list path_list in
    let rel_list :=
      (List.repeat ".." (List.length start_list - i)%nat ++ skipn i path_list)%list in
    match rel_list with
    | [] => Return "."
    | first :: rest => Return (join_all first rest)
    end.

End posixpath.


(** ** datetime *)

Module datetime.

(** A [datetime.datetime] object.  [tzinfo] is [None] for a naive value and
    otherwise holds the UTC offset in minutes. *)
Record t : Type := mk {
  year : Z; month : Z; day : Z;
  hour : Z; minute : Z; second : Z; microsecond : Z;
  tzinfo : option Z
}.

(** [datetime.datetime(y, mo, d, h, mi, s)], the constructor call of
    [plistlib] when [load] is called without [aware_datetime], as line 116
    of [plister.py] does: the value is naive. *)
Definition naive (y mo d h mi s us : Z) : t := mk y mo d h mi s us None.

Definition is_leap (y : Z) : bool :=
  ((y mod 4 =? 0) && (negb (y mod 100 =? 0) || (y mod 400 =? 0)))%bool.

Definition days_in_month (y m : Z) : Z :=
  if m =? 2 then (if is_leap y then 29 else 28)
  else if (m =? 4) || (m =? 6) || (m =? 9) || (m =? 11) then 30 else 31.

Definition in_range (lo x hi : Z) : bool := ((lo <=? x) && (x <=? hi))%bool.

(** The range checks of the [datetime] constructor. *)
Definition valid (d : t) : bool :=
  (in_range 1 (year d) 9999 && in_range 1 (month d) 12
   && in_range 1 (day d) (days_in_month (year d) (month d))
   && in_range 0 (hour d) 23 && in_range 0 (minute d) 59
   && in_range 0 (second d) 59 && in_range 0 (microsecond d) 999999
   && match tzinfo d with
      | None => true
      | Some off => in_range (-1439) off 1439
      end)%bool.

(** The character of a decimal digit. *)
Definition digit_char (d : Z) : ascii := ascii_of_nat (48 + Z.to_nat d).
Arguments digit_char : simpl never.

Fixpoint fmt_d_acc (width : nat) (z : Z) (acc : string) : string :=
  match width with
  | O => acc
  | S k => fmt_d_acc k (z / 10) (String (digit_char (z mod 10)) acc)
  end.

(** ["%0<width>d" % z] for [0 <= z < 10 ^ width], the range the [datetime]
    constructor keeps every field in: the [width] decimal digits of [z]. *)
Definition fmt_d (width : nat) (z : Z) : string := fmt_d_acc width z EmptyString.

(** The UTC offset suffix of [isoformat]: sign, hours, minutes. *)
Definition format_utcoffset (off : Z) : string :=
  let a := Z.abs off in
  (if off <? 0 then "-" else "+") ++ fmt_d 2 (a / 60) ++ ":" ++ fmt_d 2 (a mod 60).

(** What [isoformat] appends for [tzinfo]: nothing for a naive value. *)
Definition tz_suffix (tz : option Z) : string :=
  match tz with
  | None => EmptyString
  | Some off => format_utcoffset off
  end.

(** [d.isoformat()] with the default separator [T] and [timespec='auto']. *)
Definition isoformat (d : t) : string :=
  fmt_d 4 (year d) ++ "-" ++ fmt_d 2 (month d) ++ "-" ++ fmt_d 2 (day d)
  ++ "T" ++ fmt_d 2 (hour d) ++ ":" ++ fmt_d 2 (minute d) ++ ":" ++ fmt_d 2 (second d)
  ++ (if microsecond d =? 0 then EmptyString else "." ++ fmt_d 6 (microsecond d))
  ++ tz_suffix (tzinfo d).

(** *** Reading an ISO-8601 timestamp back

    The inverse direction is not in [plister.py]; it is the reader the spec's
    date-fidelity property speaks of.  It accepts the shapes [isoformat]
    writes: [YYYY-MM-DDTHH:MM:SS], an optional [.ffffff], an optional offset
    [+HH:MM], [-HH:MM] or [Z]. *)

Definition digit_val (c : ascii) : option Z :=
  let n := nat_of_ascii c in
  if (Nat.leb 48 n && Nat.leb n 57)%bool then Some (Z.of_nat (n - 48)) else None.

Fixpoint parse_digits_acc (s : string) (acc : Z) : option Z :=
  match s with
  | EmptyString => Some acc
  | String c r =>
      match digit_val c with
      | Some v => parse_digits_acc r (10 * acc + v)
      | None => None
      end
  end.

(** A field of exactly [width] decimal digits. *)
Definition parse_field (width : nat) (s : string) : option Z :=
  if Nat.eqb (String.length s) width then parse_digits_acc s 0 else None.

Definition parse_offset (s : string) : option (option Z) :=
  match s with
  | EmptyString => Some None
  | String sign r =>
      if String.eqb s "Z" then Some (Some 0)
      else if (Ascii.eqb sign "+" || Ascii.eqb sign "-")%bool
              && Nat.eqb (String.length r) 5
              && String.eqb (pystr.slice r 2 3) ":" then
        match parse_field 2 (pystr.slice r 0 2), parse_field 2 (pystr.slice r 3 5) with
        | Some h, Some m =>
            let a := h * 60 + m in
            Some (Some (if Ascii.eqb sign "-" then - a else a))
        | _, _ => None
        end
      else None
  end.

Definition fromisoformat (s : string) : option t :=
  if (String.eqb (pystr.slice s 4 5) "-" && String.eqb (pystr.slice s 7 8) "-"
      && String.eqb (pystr.slice s 10 11) "T" && String.eqb (pystr.slice s 13 14) ":"
      && String.eqb (pystr.slice s 16 17) ":")%bool then
    match parse_field 4 (pystr.slice s 0 4), parse_field 2 (pystr.slice s 5 7),
          parse_field 2 (pystr.slice s 8 10), parse_field 2 (pystr.slice s 11 13),
          parse_field 2 (pystr.slice s 14 16), parse_field 2 (pystr.slice s 17 19) with
    | Some y, Some mo, Some d, Some h, Some mi, Some sec =>
        let rest := pystr.slice s 19 (pystr.len s) in
        let '(us, rest) :=
          if String.eqb (pystr.slice rest 0 1) "."
          then (parse_field 6 (pystr.slice rest 1 7), pystr.slice rest 7 (pystr.len rest))
          else (Some 0, rest) in
        match us, parse_offset rest with
        | Some us, Some tz =>
            let r := mk y mo d h mi sec us tz in
            if valid r then Some r else None
        | _, _ => None
        end
    | _, _, _, _, _, _ => None
    end
  else None.

(** Does an ISO-8601 timestamp carry a timezone offset? *)
Definition has_utc_offset (s : string) : bool :=
  match fromisoformat s with
  | Some d => match tzinfo d with Some _ => true | None => false end
  | None => false
  end.

(** The instant a timestamp denotes, in microseconds since
    0001-01-01T00:00:00 UTC; a naive plist date is read as UTC. *)
Definition days_before_year (y : Z) : Z :=
  let p := y - 1 in p * 365 + p / 4 - p / 100 + p / 400.

Fixpoint days_before_month_fuel (fuel : nat) (y m : Z) : Z :=
  match fuel with
  | O => 0
  | S k => if 1 <? m then days_in_month y (m - 1) + days_before_month_fuel k y (m - 1)
           else 0
  end.

Definition utc_instant (d : t) : Z :=
  let days := days_before_year (year d) + days_before_month_fuel 12 (year d) (month d)
              + (day d - 1) in
  let minutes := (days * 24 + hour d) * 60 + minute d
                 - match tzinfo d with Some off => off | None => 0 end in
  (minutes * 60 + second d) * 1000000 + microsecond d.

End datetime.

(** ** base64 *)

Module base64.

Definition alphabet : string :=
  "ABCDEFGHIJKLMNOPQRSTUVWXYZabcdefghijklmnopqrstuvwxyz0123456789+/".

Definition byte_val (c : ascii) : Z := Z.of_nat (nat_of_ascii c).
Definition byte_of (z : Z) : ascii := ascii_of_nat (Z.to_nat z).

(** The character of a six-bit value. *)
Definition enc_char (i : Z) : ascii :=
  match String.get (Z.to_nat i) alphabet with
  | Some c => c
  | None => "="%char
  end.

Definition pad : ascii := "="%char.
Arguments enc_char : simpl never.
Arguments byte_val : simpl never.
Arguments byte_of : simpl never.

(** [base64.b64encode(bs)]: each group of three bytes becomes four
    characters; a last group of one or two bytes is padded with [=]. *)
Fixpoint b64encode (bs : string) : string :=
  match bs with
  | EmptyString => EmptyString
  | String a EmptyString =>
      let n := Z.shiftl (byte_val a) 16 in
      String (enc_char (Z.shiftr n 18))
        (String (enc_char (Z.land (Z.shiftr n 12) 63))
           (String pad (String pad EmptyString)))
  | String a (String b EmptyString) =>
      let n := Z.lor (Z.shiftl (byte_val a) 16) (Z.shiftl (byte_val b) 8) in
      String (enc_char (Z.shiftr n 18))
        (String (enc_char (Z.land (Z.shiftr n 12) 63))
           (String (enc_char (Z.land (Z.shiftr n 6) 63))
              (String pad EmptyString)))
  | String a (String b (String c rest)) =>
      let n := Z.lor (Z.lor (Z.shiftl (byte_val a) 16) (Z.shiftl (byte_val b) 8))
                     (byte_val c) in
      String (enc_char (Z.shiftr n 18))
        (String (enc_char (Z.land (Z.shiftr n 12) 63))
           (String (enc_char (Z.land (Z.shiftr n 6) 63))
              (String (enc_char (Z.land n 63)) (b64encode rest))))
  end.

(** *** Decoding (RFC 4648, standard alphabet, padding required)

    [plister.py] only encodes; this is the decoder of the spec's
    data-fidelity property. *)

Fixpoint index_of (c : ascii) (s : string) (i : Z) : option Z :=
  match s with
  | EmptyString => None
  | String d r => if Ascii.eqb c d then Some i else index_of c r (i + 1)
  end.

Definition dec_char (c : ascii) : option Z := index_of c alphabet 0.

Fixpoint b64decode (s : string) : option string :=
  match s with
  | EmptyString => Some EmptyString
  | String c1 (String c2 (String c3 (String c4 rest))) =>
      match dec_char c1, dec_char c2 with
      | Some s1, Some s2 =>
          if (Ascii.eqb c3 pad && Ascii.eqb c4 pad)%bool then
            match rest with
            | EmptyString =>
                let n := Z.lor (Z.shiftl s1 18) (Z.shiftl s2 12) in
                Some (String (byte_of (Z.land (Z.shiftr n 16) 255)) EmptyString)
            | _ => None
            end
          else
            match dec_char c3 with
            | Some s3 =>
                if Ascii.eqb c4 pad then
                  match rest with
                  | EmptyString =>
                      let n := Z.lor (Z.lor (Z.shiftl s1 18) (Z.shiftl s2 12))
                                     (Z.shiftl s3 6) in
                      Some (String (byte_of (Z.land (Z.shiftr n 16) 255))
                              (String (byte_of (Z.land (Z.shiftr n 8) 255))
                                 EmptyString))
                  | _ => None
                  end
                else
                  match dec_char c4, b64decode rest with
                  | Some s4, Some tl =>
                      let n := Z.lor (Z.lor (Z.lor (Z.shiftl s1 18) (Z.shiftl s2 12))
                                            (Z.shiftl s3 6)) s4 in
                      Some (String (byte_of (Z.land (Z.shiftr n 16) 255))
                              (String (byte_of (Z.land (Z.shiftr n 8) 255))
                                 (String (byte_of (Z.land n 255)) tl)))
                  | _, _ => None
                  end
            | None => None
            end
      | _, _ => None
      end
  | _ => None
  end.

(** Membership in the standard alphabet or the padding character. *)
Definition is_b64_char (c : ascii) : bool :=
  match dec_char c with
  | Some _ => true
  | None => Ascii.eqb c pad
  end.

Fixpoint all_chars (p : ascii -> bool) (s : string) : bool :=
  match s with
  | EmptyString => true
  | String c r => (p c && all_chars p r)%bool
  end.

End base64.

(** ** The values [plistlib.load] returns *)

(** One decoded plist node, as the Python object [plistlib] builds for it.
    A [float] is carried as the text [float.__repr__] gives it (floating-point
    arithmetic plays no part in the conversion); [PyUID] is [plistlib.UID],
    which binary plists written by keyed archivers contain. *)
Inductive pyobj : Type :=
| PyStr (s : string)
| PyInt (z : Z)
| PyFloat (repr : string)
| PyBool (b : bool)
| PyDatetime (d : datetime.t)
| PyBytes (b : string)
| PyList (items : list pyobj)
| PyDict (items : list (string * pyobj))
| PyUID (data : Z).

(** [f"{type(obj)}"] *)
Definition type_repr (obj : pyobj) : string :=
  "<class '" ++
  match obj with
  | PyStr _ => "str"
  | PyInt _ => "int"
  | PyFloat _ => "float"
  | PyBool _ => "bool"
  | PyDatetime _ => "datetime.datetime"
  | PyBytes _ => "bytes"
  | PyList _ => "list"
  | PyDict _ => "dict"
  | PyUID _ => "plistlib.UID"
  end ++ "'>".

(** [convert_to_json_serializable] (plister.py, lines 149-160). *)
Definition convert_to_json_serializable (obj : pyobj) : result pyobj :=
  match obj with
  | PyDatetime d => Return (PyStr (datetime.isoformat d))
  | PyBytes b => Return (PyStr (base64.b64encode b))
  | _ => Raise (TypeError ("Type non sérialisable en JSON : " ++ type_repr obj))
  end.

(** ** json.dump *)

Module json.

Definition hex_digit (n : nat) : ascii :=
  match String.get n "0123456789abcdef" with
  | Some c => c
  | None => "0"%char
  end.

(** The replacement of one character by [json.encoder.ESCAPE_DCT]. *)
Definition escape_char (c : ascii) : string :=
  let n := nat_of_ascii c in
  if Nat.eqb n 34 then "\" ++ pystr.DQ
  else if Nat.eqb n 92 then "\\"
  else if Nat.eqb n 8 then "\b"
  else if Nat.eqb n 12 then "\f"
  else if Nat.eqb n 10 then "\n"
  else if Nat.eqb n 13 then "\r"
  else if Nat.eqb n 9 then "\t"
  else if Nat.ltb n 32 then
    "\u00" ++ String (hex_digit (n / 16)) (String (hex_digit (n mod 16)) EmptyString)
  else String c EmptyString.

Fixpoint escape (s : string) : string :=
  match s with
  | EmptyString => EmptyString
  | String c r => escape_char c ++ escape r
  end.

(** [json.encoder.encode_basestring(s)], the string encoder under
    [ensure_ascii=False]. *)
Definition encode_basestring (s : string) : string :=
  pystr.DQ ++ escape s ++ pystr.DQ.

(** What an encoder run has written so far, and the exception that stopped
    it, if any.  [json.dump] writes each chunk to the file as the encoder
    yields it, so the text before a failure has reached the sink. *)
Definition enc : Type := (string * option exn)%type.

Definition emit (s : string) : enc := (s, None).
Definition fail (e : exn) : enc := (EmptyString, Some e).

Definition then_ (a b : enc) : enc :=
  match snd a with
  | Some _ => a
  | None => (fst a ++ fst b, snd b)
  end.

Notation "a ;;; b" := (then_ a b) (at level 61, right associativity).

(** ['\n' + ' ' * indent * level] *)
Definition newline_indent (indent : Z) (level : nat) : string :=
  pystr.LF ++ pystr.repeat " "%char (Z.to_nat indent * level).

(** The encoding of a value that needs no recursion. *)
Definition encode_scalar (o : pyobj) : option string :=
  match o with
  | PyStr s => Some (encode_basestring s)
  | PyInt z => Some (pystr.of_int z)
  | PyFloat r => Some r
  | PyBool b => Some (if b then "true" else "false")
  | _ => None
  end.

(** [_iterencode] of [json.encoder._make_iterencode], with an integer
    [indent] (so the item separator is [","] and the key separator [": "])
    and [default=convert_to_json_serializable]. *)
Fixpoint iterencode (indent : Z) (o : pyobj) (level : nat) : enc :=
  match o with
  | PyStr _ | PyInt _ | PyFloat _ | PyBool _ =>
      match encode_scalar o with
      | Some t => emit t
      | None => emit EmptyString
      end
  | PyList [] => emit "[]"
  | PyList items =>
      let nli := newline_indent indent (S level) in
      emit ("[" ++ nli) ;;;
      (fix each (first : bool) (l : list pyobj) : enc :=
         match l with
         | [] => emit EmptyString
         | value :: rest =>
             (if first then emit EmptyString else emit ("," ++ nli)) ;;;
             iterencode indent value (S level) ;;;
             each false rest
         end) true items ;;;
      emit (newline_indent indent level ++ "]")
  | PyDict [] => emit "{}"
  | PyDict items =>
      let nli := newline_indent indent (S level) in
      emit ("{" ++ nli) ;;;
      (fix each (first : bool) (l : list (string * pyobj)) : enc :=
         match l with
         | [] => emit EmptyString
         | (key, value) :: rest =>
             (if first then emit EmptyString else emit ("," ++ nli)) ;;;
             emit (encode_basestring key) ;;; emit ": " ;;;
             iterencode indent value (S level) ;;;
             each false rest
         end) true items ;;;
      emit (newline_indent indent level ++ "}")
  | PyDatetime _ | PyBytes _ | PyUID _ =>
      (* o = _default(o); yield from _iterencode(o) *)
      match convert_to_json_serializable o with
      | Raise e => fail e
      | Return o' =>
          match encode_scalar o' with
          | Some t => emit t
          | None => fail (ValueError "Circular reference detected")
          end
      end
  end.

End json.

(** ** The file system and the process state *)

Module fs.

(** A directory tree.  The order of a directory's entries is the order in
    which the operating system lists them ([os.scandir], [os.walk]); nothing
    is assumed about it.  There are no symbolic links and no permissions. *)
Inductive node : Type :=
| File (data : string)
| Dir (entries : list (string * node)).

Definition is_dir (n : node) : bool :=
  match n with Dir _ => true | File _ => false end.

Fixpoint find_entry (name : string) (es : list (string * node)) : option node :=
  match es with
  | [] => None
  | (k, n) :: rest => if String.eqb k name then Some n else find_entry name rest
  end.

(** Replaces the entry [name], or adds it after the existing ones. *)
Fixpoint set_entry (name : string) (n : node) (es : list (string * node))
  : list (string * node) :=
  match es with
  | [] => [(name, n)]
  | (k, m) :: rest =>
      if String.eqb k name then (k, n) :: rest else (k, m) :: set_entry name n rest
  end.

Inductive lookup_result : Type :=
| Found (n : node)
| ENOENT            (* a component does not exist *)
| ENOTDIR.          (* a component that is not the last one is a file *)

Fixpoint lookup (n : node) (comps : list string) : lookup_result :=
  match comps with
  | [] => Found n
  | c :: rest =>
      match n with
      | File _ => ENOTDIR
      | Dir es =>
          match find_entry c es with
          | Some m => lookup m rest
          | None => ENOENT
          end
      end
  end.

(** [mkdir -p]: creates the directory [comps] and its missing ancestors;
    fails on a file in the way. *)
Fixpoint mkdir_p (n : node) (comps : list string) : option node :=
  match n with
  | File _ => None
  | Dir es =>
      match comps with
      | [] => Some n
      | c :: rest =>
          match mkdir_p (match find_entry c es with Some m => m | None => Dir [] end) rest with
          | Some m' => Some (Dir (set_entry c m' es))
          | None => None
          end
      end
  end.

(** Rewrites the node at [comps] by [f], which sees the node found there, if
    any; the parent directory has to exist. *)
Fixpoint update (n : node) (comps : list string) (f : option node -> option node)
  : option node :=
  match comps with
  | [] => None
  | c :: rest =>
      match n with
      | File _ => None
      | Dir es =>
          match rest with
          | [] =>
              match f (find_entry c es) with
              | Some m' => Some (Dir (set_entry c m' es))
              | None => None
              end
          | _ =>
              match find_entry c es with
              | Some m =>
                  match update m rest f with
                  | Some m' => Some (Dir (set_entry c m' es))
                  | None => None
                  end
              | None => None
              end
          end
      end
  end.

(** [os.walk(top)] below the node of [top], top-down: one triple
    [(root, dirs, files)] per directory. *)
Fixpoint walk (top : string) (n : node) : list (string * list string * list string) :=
  match n with
  | File _ => []
  | Dir es =>
      (top,
       map fst (filter (fun e => is_dir (snd e)) es),
       map fst (filter (fun e => negb (is_dir (snd e))) es))
      :: (fix below (l : list (string * node)) :=
            match l with
            | [] => []
            | (name, child) :: rest =>
                (walk (posixpath.join top name) child ++ below rest)%list
            end) es
  end.

End fs.

(** The system calls a run makes, in the order they are made. *)
Inductive syscall : Type :=
| SysScandir (path : string)       (* a directory is listed *)
| SysOpenRead (path : string)      (* open(path, "rb") *)
| SysMakedirs (path : string)      (* os.makedirs(path, exist_ok=True) *)
| SysOpenWrite (path : string).    (* open(path, "w") *)

Record world : Type := mkWorld {
  root : fs.node;          (* the directory tree below [/] *)
  cwd : string;            (* os.getcwd() *)
  stdout : string;
  stderr : string;
  log : list syscall
}.

(** A computation: runs in a world, returns or raises, leaves a world. *)
Definition M (A : Type) : Type := world -> result A * world.

Definition ret {A} (a : A) : M A := fun w => (Return a, w).
Definition raise {A} (e : exn) : M A := fun w => (Raise e, w).
Definition bind {A B} (m : M A) (k : A -> M B) : M B :=
  fun w => match m w with
           | (Return a, w') => k a w'
           | (Raise e, w') => (Raise e, w')
           end.
Definition lift {A} (r : result A) : M A := fun w => (r, w).

Declare Scope py_scope.
Delimit Scope py_scope with py.
Notation "x <- m ;; k" := (bind m (fun x => k))
  (at level 100, m at next level, right associativity) : py_scope.
Notation "m ;; k" := (bind m (fun _ => k))
  (at level 100, right associativity) : py_scope.
Open Scope py_scope.

Definition get_cwd : M string := fun w => (Return (cwd w), w).

Definition set_root (r : fs.node) (w : world) : world :=
  mkWorld r (cwd w) (stdout w) (stderr w) (log w).

Definition trace (s : syscall) : M unit :=
  fun w => (Return tt, mkWorld (root w) (cwd w) (stdout w) (stderr w) (log w ++ [s])).

(** [print(s)] and [sys.stdout.write(s)] *)
Definition write_stdout (s : string) : M unit :=
  fun w => (Return tt, mkWorld (root w) (cwd w) (stdout w ++ s) (stderr w) (log w)).
Definition print (s : string) : M unit := write_stdout (s ++ pystr.LF).

(** [print(s, file=sys.stderr)] *)
Definition eprint (s : string) : M unit :=
  fun w => (Return tt,
            mkWorld (root w) (cwd w) (stdout w) (stderr w ++ s ++ pystr.LF) (log w)).

Module os.

(** The components of [path] from the root; the empty path names nothing.
    [..] is resolved as [abspath] does. *)
Definition resolve (w : world) (path : string) : option (list string) :=
  if pystr.truthy path
  then Some (filter pystr.truthy
               (pystr.split posixpath.sep (posixpath.abspath (cwd w) path)))
  else None.

Definition stat (w : world) (path : string) : fs.lookup_result :=
  match resolve w path with
  | Some comps => fs.lookup (root w) comps
  | None => fs.ENOENT
  end.

(** [os.path.exists(path)] *)
Definition exists_ (path : string) : M bool :=
  fun w => (Return (match stat w path with fs.Found _ => true | _ => false end), w).

(** [os.path.isdir(path)] *)
Definition isdir (path : string) : M bool :=
  fun w => (Return (match stat w path with
                    | fs.Found (fs.Dir _) => true
                    | _ => false
                    end), w).

Definition errno_msg (text path : string) : string :=
  text ++ ": '" ++ path ++ "'".

Definition enoent (path : string) : exn :=
  FileNotFoundError (errno_msg "[Errno 2] No such file or directory" path).
Definition enotdir (path : string) : exn :=
  NotADirectoryError (errno_msg "[Errno 20] Not a directory" path).
Definition eisdir (path : string) : exn :=
  IsADirectoryError (errno_msg "[Errno 21] Is a directory" path).
Definition eexist (path : string) : exn :=
  FileExistsError (errno_msg "[Errno 17] File exists" path).

(** [os.makedirs(path, exist_ok=True)]: creates the directory and its
    missing ancestors and accepts one that exists; raises [FileExistsError]
    when [path] is a file, [NotADirectoryError] when an ancestor is one, and
    [FileNotFoundError] for the empty path. *)
Definition makedirs (path : string) : M unit :=
  trace (SysMakedirs path) ;;
  fun w =>
    match resolve w path with
    | None => (Raise (enoent path), w)
    | Some comps =>
        match fs.mkdir_p (root w) comps with
        | Some r => (Return tt, set_root r w)
        | None =>
            (Raise (match fs.lookup (root w) comps with
                    | fs.Found _ => eexist path
                    | _ => enotdir path
                    end), w)
        end
    end.

(** [os.scandir(path)]: the entries of a directory, each with its name and
    whether it is a file. *)
Definition scandir (path : string) : M (list (string * bool)) :=
  trace (SysScandir path) ;;
  fun w =>
    match stat w path with
    | fs.Found (fs.Dir es) =>
        (Return (map (fun e => (fst e, negb (fs.is_dir (snd e)))) es), w)
    | fs.Found (fs.File _) | fs.ENOTDIR => (Raise (enotdir path), w)
    | fs.ENOENT => (Raise (enoent path), w)
    end.

(** [os.walk(top)]; a [top] that cannot be listed yields nothing. *)
Definition walk (top : string) : M (list (string * list string * list string)) :=
  fun w =>
    let triples :=
      match stat w top with
      | fs.Found n => fs.walk top n
      | _ => []
      end in
    (Return triples,
     mkWorld (root w) (cwd w) (stdout w) (stderr w)
       (log w ++ map (fun t => SysScandir (fst (fst t))) triples)).

(** [open(path, "rb")] followed by reading the whole file. *)
Definition read_file (path : string) : M string :=
  trace (SysOpenRead path) ;;
  fun w =>
    match stat w path with
    | fs.Found (fs.File data) => (Return data, w)
    | fs.Found (fs.Dir _) => (Raise (eisdir path), w)
    | fs.ENOENT => (Raise (enoent path), w)
    | fs.ENOTDIR => (Raise (enotdir path), w)
    end.

(** [open(path, "w")]: creates the file or truncates it; raises
    [IsADirectoryError] on a directory, [FileNotFoundError] when the parent
    directory is missing and [NotADirectoryError] when an ancestor is a
    file. *)
Definition open_write (path : string) : M unit :=
  trace (SysOpenWrite path) ;;
  fun w =>
    match stat w path, resolve w path with
    | fs.Found (fs.Dir _), _ => (Raise (eisdir path), w)
    | fs.ENOTDIR, _ => (Raise (enotdir path), w)
    | _, None => (Raise (enoent path), w)
    | _, Some comps =>
        match fs.update (root w) comps (fun _ => Some (fs.File EmptyString)) with
        | Some r => (Return tt, set_root r w)
        | None => (Raise (enoent path), w)
        end
    end.

(** [fp.write(text)] on a file opened by [open_write]. *)
Definition append_file (path text : string) : M unit :=
  fun w =>
    match resolve w path with
    | Some comps =>
        match fs.update (root w) comps
                (fun old => match old with
                            | Some (fs.File data) => Some (fs.File (data ++ text))
                            | _ => None
                            end) with
        | Some r => (Return tt, set_root r w)
        | None => (Raise (enoent path), w)
        end
    | None => (Raise (enoent path), w)
    end.

End os.

(** ** Python built-ins used by plister.py *)

Module py.

(** Truth value of an [Optional[str]]: [None] and the empty string are
    false. *)
Definition opt_truthy (o : option string) : bool :=
  match o with
  | Some s => pystr.truthy s
  | None => false
  end.

(** [f"{o}"] for an [Optional[str]] *)
Definition opt_str (o : option string) : string :=
  match o with
  | Some s => s
  | None => "None"
  end.

(** [a <= b] on [str] *)
Definition str_le (a b : string) : bool := String.leb a b.

Fixpoint insert (x : string) (l : list string) : list string :=
  match l with
  | [] => [x]
  | y :: rest => if str_le x y then x :: l else y :: insert x rest
  end.

(** [sorted(l)] on a list of [str]: a stable sort by [<=]. *)
Fixpoint sorted (l : list string) : list string :=
  match l with
  | [] => []
  | x :: rest => insert x (sorted rest)
  end.

(** [try: m except e: h e], where [h] answers [None] for an exception no
    [except] clause matches. *)
Definition try_except {A} (m : M A) (h : exn -> option (M A)) : M A :=
  fun w => match m w with
           | (Return a, w') => (Return a, w')
           | (Raise e, w') =>
               match h e with
               | Some k => k w'
               | None => (Raise e, w')
               end
           end.

End py.

(** ** plister.py *)

(** The namespace [argparse] returns (lines 25-63). *)
Record args : Type := mkArgs {
  plist_file : string;
  output : option string;
  output_dir : option string;
  indent : Z;
  recursive : bool;
  no_progress : bool
}.

(** What [convert_single_plist_to_json] returns:
    [(plist_path, success, error)]. *)
Definition outcome : Type := (string * bool * option string)%type.

Definition MSG_INVALID : string := "fichier .plist invalide ou corrompu".
Definition MSG_NOT_FOUND : string := "fichier introuvable".
Definition MSG_READ : string := "erreur de lecture : ".
Definition MSG_JSON : string := "erreur de conversion JSON : ".

(** [file.lower().endswith(".plist")] (lines 72 and 76) *)
Definition is_plist_name (name : string) : bool :=
  pystr.endswith (pystr.lower name) ".plist".

(** [iter_plist_files] (lines 66-78), before the final [sorted]. *)
Definition list_plist_files (directory : string) (recursive : bool) : M (list string) :=
  if recursive then
    triples <- os.walk directory ;;
    ret (flat_map (fun t : string * list string * list string =>
                     map (posixpath.join (fst (fst t))) (filter is_plist_name (snd t)))
                  triples)
  else
    entries <- os.scandir directory ;;
    ret (map (fun e : string * bool => posixpath.join directory (fst e))
             (filter (fun e : string * bool => snd e && is_plist_name (fst e))%bool entries)).

(** [iter_plist_files] (lines 66-78) *)
Definition iter_plist_files (directory : string) (recursive : bool) : M (list string) :=
  plist_files <- list_plist_files directory recursive ;;
  ret (py.sorted plist_files).

(** [ensure_directory] (lines 81-82) *)
Definition ensure_directory (path : string) : M unit := os.makedirs path.

(** The path [compute_output_path] returns (lines 89-97), before its
    [ensure_directory] call. *)
Definition output_path_of (plist_path base_input_dir : string)
    (output_dir : option string) : M string :=
  let directory :=
    if py.opt_truthy output_dir then py.opt_str output_dir
    else posixpath.dirname plist_path in
  rel_path <- (if pystr.truthy base_input_dir
               then c <- get_cwd ;; lift (posixpath.relpath c plist_path base_input_dir)
               else ret (posixpath.basename plist_path)) ;;
  let stem := fst (posixpath.splitext rel_path) in
  let json_rel_path := stem ++ ".json" in
  ret (posixpath.join directory json_rel_path).

(** [compute_output_path] (lines 85-99) *)
Definition compute_output_path (plist_path base_input_dir : string)
    (output_dir : option string) : M string :=
  output_path <- output_path_of plist_path base_input_dir output_dir ;;
  ensure_directory (posixpath.dirname output_path) ;;
  ret output_path.

(** [json.dump(plist_data, sys.stdout, ...)]: the chunks reach the stream
    as they are produced. *)
Definition json_dump_stdout (obj : pyobj) (indent : Z) : M unit :=
  let '(text, err) := json.iterencode indent obj 0 in
  write_stdout text ;;
  match err with
  | None => ret tt
  | Some e => raise e
  end.

(** [with open(output_path, "w", encoding="utf-8") as out_fp:
       json.dump(plist_data, out_fp, ...)] (lines 136-143) *)
Definition json_dump_file (output_path : string) (obj : pyobj) (indent : Z) : M unit :=
  os.open_write output_path ;;
  let '(text, err) := json.iterencode indent obj 0 in
  os.append_file output_path text ;;
  match err with
  | None => ret tt
  | Some e => raise e
  end.

Section Plister.

(** [plistlib.load] on the bytes of a file: the decoder of the Python
    standard library, which [plister.py] calls and does not define. *)
Variable plistlib_load : string -> result pyobj.

(** [with open(plist_path, "rb") as fp: plist_data = plistlib.load(fp)]
    (lines 115-116) *)
Definition load_plist (plist_path : string) : M pyobj :=
  data <- os.read_file plist_path ;;
  lift (plistlib_load data).

(** [convert_single_plist_to_json] (lines 102-146) *)
Definition convert_single_plist_to_json (plist_path : string)
    (output_path : option string) (indent : Z) (stream_output : bool) : M outcome :=
  loaded <- py.try_except
              (plist_data <- load_plist plist_path ;; ret (inl plist_data))
              (fun e =>
                 match e with
                 | InvalidFileException =>
                     Some (ret (inr (plist_path, false, Some MSG_INVALID)))
                 | FileNotFoundError _ =>
                     Some (ret (inr (plist_path, false, Some MSG_NOT_FOUND)))
                 | _ =>
                     if is_Exception e
                     then Some (ret (inr (plist_path, false, Some (MSG_READ ++ exn_str e))))
                     else None
                 end) ;;
  match loaded with
  | inr failure => ret failure
  | inl plist_data =>
      py.try_except
        ((if (stream_output || negb (py.opt_truthy output_path))%bool then
            json_dump_stdout plist_data indent ;;
            write_stdout pystr.LF
          else
            ensure_directory (posixpath.dirname (py.opt_str output_path)) ;;
            json_dump_file (py.opt_str output_path) plist_data indent) ;;
         ret (plist_path, true, None))
        (fun e =>
           if is_Exception e
           then Some (ret (plist_path, false, Some (MSG_JSON ++ exn_str e)))
           else None)
  end.

(** The loop of [main] over the candidates (lines 211-219); [results] is
    the list built so far. *)
Fixpoint main_loop (plist_files : list string) (base_dir : string)
    (output_dir : option string) (indent : Z) (results : list outcome)
  : M (list outcome) :=
  match plist_files with
  | [] => ret results
  | plist_file :: rest =>
      output_path <- compute_output_path plist_file base_dir output_dir ;;
      result <- convert_single_plist_to_json plist_file (Some output_path) indent false ;;
      main_loop rest base_dir output_dir indent
        (results ++ [(plist_file, snd (fst result), snd result)])
  end.

Definition plural (n : Z) : string := if 1 <? n then "s" else EmptyString.

Fixpoint eprint_failures (failure_details : list (string * option string)) : M unit :=
  match failure_details with
  | [] => ret tt
  | (path, err) :: rest =>
      eprint ("  - " ++ path ++ " : " ++ py.opt_str err) ;;
      eprint_failures rest
  end.

(** The directory branch of [main] (lines 172-233); the value is the
    argument of [sys.exit].  The progress bar of lines 202-209 iterates over
    the same list in the same order; what it draws is not modelled. *)
Definition main_directory (a : args) : M Z :=
  let plist_path := plist_file a in
  plist_files <- iter_plist_files plist_path (recursive a) ;;
  match plist_files with
  | [] =>
      eprint "Aucun fichier .plist trouvé dans le dossier spécifié." ;;
      ret 1
  | _ =>
      if (py.opt_truthy (output a) && negb (py.opt_truthy (output_dir a)))%bool then
        eprint ("Option -o/--output réservée aux conversions d'un seul fichier."
                ++ pystr.LF
                ++ "Utilisez --output-dir pour choisir un dossier de sortie.") ;;
        ret 2
      else
        c <- get_cwd ;;
        let base_dir := posixpath.abspath c plist_path in
        let output_dir :=
          if py.opt_truthy (output_dir a)
          then Some (posixpath.abspath c (py.opt_str (output_dir a)))
          else output_dir a in
        let total := Z.of_nat (List.length plist_files) in
        print ("Conversion de " ++ pystr.of_int total ++ " fichier" ++ plural total
               ++ " .plist depuis " ++ plist_path) ;;
        results <- main_loop plist_files base_dir output_dir (indent a) [] ;;
        let success_count :=
          Z.of_nat (List.length (filter (fun r : outcome => snd (fst r)) results)) in
        let failure_details :=
          map (fun r : outcome => (fst (fst r), snd r))
              (filter (fun r : outcome => negb (snd (fst r))) results) in
        print ("✅ Conversion terminée : " ++ pystr.of_int success_count ++ "/"
               ++ pystr.of_int total ++ " fichier" ++ plural total
               ++ " converti" ++ plural success_count ++ ".") ;;
        match failure_details with
        | [] => ret 0
        | _ =>
            eprint "❌ Fichiers en erreur :" ;;
            eprint_failures failure_details ;;
            ret 3
        end
  end.

(** The single-file branch of [main] (lines 235-257). *)
Definition main_file (a : args) : M Z :=
  isd <- os.isdir (if py.opt_truthy (output a) then py.opt_str (output a)
                   else EmptyString) ;;
  if isd : bool then
    eprint "Erreur : utilisez -o/--output avec un chemin de fichier, pas un dossier." ;;
    ret 2
  else
    c <- get_cwd ;;
    let plist_path := posixpath.abspath c (plist_file a) in
    let output_path :=
      if py.opt_truthy (output a)
      then Some (posixpath.abspath c (py.opt_str (output a))) else None in
    r <- convert_single_plist_to_json plist_path output_path (indent a)
           (match output_path with None => true | Some _ => false end) ;;
    if snd (fst r) then
      (if py.opt_truthy output_path
       then print ("✅ Fichier converti : " ++ plist_path ++ " → "
                   ++ py.opt_str output_path)
       else ret tt) ;;
      ret 0
    else
      eprint ("Erreur : " ++ py.opt_str (snd r)) ;;
      ret 1.

(** [main] (lines 163-257) after [parse_args]; the value is the argument of
    [sys.exit]. *)
Definition main (a : args) : M Z :=
  found <- os.exists_ (plist_file a) ;;
  if negb found then
    eprint ("Erreur : chemin introuvable : " ++ plist_file a) ;;
    ret 1
  else
    isd <- os.isdir (plist_file a) ;;
    if isd : bool then main_directory a else main_file a.

End Plister.

(** ** Order on paths *)

(** [a <= b] on [str], as a proposition. *)
Definition str_le_prop (a b : string) : Prop := py.str_le a b = true.

(** ** Reading the directory tree *)

(** A directory stands at [q]. *)
Definition dir_at (n : fs.node) (q : list string) : Prop :=
  exists es, fs.lookup n q = fs.Found (fs.Dir es).

(** The file with content [d] stands at [q]. *)
Definition file_at (n : fs.node) (q : list string) (d : string) : Prop :=
  fs.lookup n q = fs.Found (fs.File d).

Definition found_opt (r : fs.lookup_result) : option fs.node :=
  match r with fs.Found x => Some x | _ => None end.

(** One world comes after another: the process has not changed directory,
    every directory is still there, and the system-call log and both
    standard streams have only grown. *)
Definition evolves (w w' : world) : Prop :=
  cwd w' = cwd w
  /\ (forall q, dir_at (root w) q -> dir_at (root w') q)
  /\ (exists evs, log w' = (log w ++ evs)%list)
  /\ (exists out, stdout w' = stdout w ++ out)
  /\ (exists err, stderr w' = stderr w ++ err).

(** A computation that only moves the world forward. *)
Definition forward {A} (m : M A) : Prop := forall w, evolves w (snd (m w)).

(** The world after one more system call has been logged. *)
Definition logged (s : syscall) (w : world) : world :=
  mkWorld (root w) (cwd w) (stdout w) (stderr w) (log w ++ [s]).

(** No file was created, removed or changed between two worlds. *)
Definition files_same (w w' : world) : Prop :=
  forall q d, file_at (root w') q d <-> file_at (root w) q d.

(** Between two worlds exactly the file [path] was written, with content
    [text]: every other file is as before. *)
Definition wrote (path text : string) (w w' : world) : Prop :=
  exists comps,
    os.resolve w path = Some comps
    /\ file_at (root w') comps text
    /\ forall q d, q <> comps -> (file_at (root w') q d <-> file_at (root w) q d).

(** The [except] clauses of the first [try] (lines 117-122). *)
Definition read_failure (p : string) (e : exn) : result outcome :=
  match e with
  | InvalidFileException => Return (p, false, Some MSG_INVALID)
  | FileNotFoundError _ => Return (p, false, Some MSG_NOT_FOUND)
  | _ => if is_Exception e then Return (p, false, Some (MSG_READ ++ exn_str e))
         else Raise e
  end.

(** The [except] clause of the second [try] (lines 145-146). *)
Definition json_failure (p : string) (e : exn) : result outcome :=
  if is_Exception e then Return (p, false, Some (MSG_JSON ++ exn_str e)) else Raise e.

(** A system call that lists a directory. *)
Definition is_listing (s : syscall) : bool :=
  match s with
  | SysScandir _ => true
  | _ => false
  end.

(** The files a run has opened for reading, in order. *)
Fixpoint reads (l : list syscall) : list string :=
  match l with
  | [] => []
  | SysOpenRead p :: rest => p :: reads rest
  | _ :: rest => reads rest
  end.

(** The namespace [a] with another [--output]. *)
Definition with_output (a : args) (o : option string) : args :=
  mkArgs (plist_file a) o (output_dir a) (indent a) (recursive a) (no_progress a).

(** ** Views of the JSON encoder *)

(** Does a decoded value hold a [plistlib.UID] anywhere? *)
Fixpoint has_uid (o : pyobj) : bool :=
  match o with
  | PyUID _ => true
  | PyList items => existsb has_uid items
  | PyDict items => existsb (fun kv => has_uid (snd kv)) items
  | _ => false
  end.

(** The loop of [_iterencode_list] over the items, with the encoder of one
    item as a parameter. *)
Definition encode_items (f : pyobj -> json.enc) (sep : string)
  : bool -> list pyobj -> json.enc :=
  fix each (first : bool) (l : list pyobj) : json.enc :=
    match l with
    | [] => json.emit EmptyString
    | value :: rest =>
        json.then_ (if first then json.emit EmptyString else json.emit sep)
          (json.then_ (f value) (each false rest))
    end.

(** The loop of [_iterencode_dict] over the items. *)
Definition encode_pairs (f : pyobj -> json.enc) (sep : string)
  : bool -> list (string * pyobj) -> json.enc :=
  fix each (first : bool) (l : list (string * pyobj)) : json.enc :=
    match l with
    | [] => json.emit EmptyString
    | (key, value) :: rest =>
        json.then_ (if first then json.emit EmptyString else json.emit sep)
          (json.then_ (json.emit (json.encode_basestring key))
             (json.then_ (json.emit ": ")
                (json.then_ (f value) (each false rest))))
    end.

(** The exception [convert_to_json_serializable] raises for a
    [plistlib.UID]. *)
Definition uid_error : exn :=
  TypeError "Type non sérialisable en JSON : <class 'plistlib.UID'>".

(** A computation that opens no file for reading. *)
Definition reads_nothing {A} (m : M A) : Prop :=
  forall w, reads (log (snd (m w))) = reads (log w).

(** ** Bounded checks *)

(** A boolean property checked on [0 .. n-1] holds on that range. *)
Fixpoint all_from (fuel : nat) (z : Z) (p : Z -> bool) : bool :=
  match fuel with
  | O => true
  | S k => (p z && all_from k (z + 1) p)%bool
  end.

(** ** Fixtures for the examples *)

Module demo.

(** A stand-in for [plistlib.load] in the examples: it knows two documents
    and rejects every other content as an invalid file. *)
Definition load (data : string) : result pyobj :=
  if String.eqb data "<plist:ok>"
  then Return (PyDict [("name", PyStr "x"); ("n", PyInt 1)])
  else if String.eqb data "<plist:uid>"
  then Return (PyDict [("a", PyInt 1); ("b", PyUID 3)])
  else Raise InvalidFileException.

(** The tree below [/]; the process runs in [/w]. *)
Definition tree : fs.node :=
  fs.Dir
    [("w",
      fs.Dir
        [("foo",
          fs.Dir [("baz0.plist", fs.File "<plist:ok>");
                  ("bar", fs.Dir [("baz.plist", fs.File "<plist:ok>")])]);
         ("abc",
          fs.Dir [("b.plist", fs.File "<plist:ok>");
                  ("a.plist", fs.File "<plist:ok>");
                  ("notes.txt", fs.File "text");
                  ("c.plist", fs.File "<plist:ok>")]);
         ("pair",
          fs.Dir [("good.plist", fs.File "<plist:ok>");
                  ("bad.plist", fs.File "garbage")]);
         ("deep",
          fs.Dir [("sub", fs.Dir [("bad.PLIST", fs.File "garbage")])]);
         ("uid.plist", fs.File "<plist:uid>");
         ("old.json", fs.File "previous content");
         ("blocked", fs.File "a file, not a directory")])].

Definition world0 : world := mkWorld tree "/w" EmptyString EmptyString [].

(** The directory [abc] of [tree] alone, listed in another order. *)
Definition tree_shuffled : fs.node :=
  fs.Dir
    [("w",
      fs.Dir
        [("abc",
          fs.Dir [("a.plist", fs.File "<plist:ok>");
                  ("b.plist", fs.File "<plist:ok>");
                  ("c.plist", fs.File "<plist:ok>");
                  ("notes.txt", fs.File "text")])])].

Definition world_shuffled : world :=
  mkWorld tree_shuffled "/w" EmptyString EmptyString [].

Definition args_dir (dir : string) (o od : option string) (r : bool) : args :=
  mkArgs dir o od 2 r true.

End demo.
Example split_ex : posixpath.split "foo/bar/baz.plist" = ("foo/bar", "baz.plist").
Proof. reflexivity. Qed.
Example split_root : posixpath.split "/a" = ("/", "a") /\ posixpath.split "a" = (EmptyString, "a")
  /\ posixpath.split "//a//" = ("//a", EmptyString) /\ posixpath.split "///" = ("///", EmptyString).
Proof. repeat split. Qed.
Example splitext_ex : posixpath.splitext "bar/baz.plist" = ("bar/baz", ".plist")
  /\ posixpath.splitext "a.b/.hidden" = ("a.b/.hidden", EmptyString)
  /\ posixpath.splitext "a/..x.y" = ("a/..x", ".y")
  /\ posixpath.splitext "a.b/c" = ("a.b/c", EmptyString).
Proof. repeat split. Qed.
Example normpath_ex : posixpath.normpath "/w/foo/../bar//./baz/" = "/w/bar/baz"
  /\ posixpath.normpath "../a/.." = ".." /\ posixpath.normpath "//a" = "//a"
  /\ posixpath.normpath "///a" = "/a" /\ posixpath.normpath "/.." = "/".
Proof. repeat split. Qed.
Example relpath_ex : posixpath.relpath "/w" "foo/bar/baz.plist" "foo" = Return "bar/baz.plist"
  /\ posixpath.relpath "/w" "foo" "foo/bar" = Return ".."
  /\ posixpath.relpath "/w" "foo" "foo" = Return "."
  /\ posixpath.relpath "/w" "/x/y" "/w/z" = Return "../../x/y".
Proof. repeat split. Qed.
Example iso_ex : datetime.isoformat (datetime.naive 2020 1 2 3 4 5 0) = "2020-01-02T03:04:05"
  /\ datetime.isoformat (datetime.naive 2020 1 2 3 4 5 120) = "2020-01-02T03:04:05.000120"
  /\ datetime.isoformat (datetime.mk 2020 1 2 3 4 5 0 (Some (-330))) = "2020-01-02T03:04:05-05:30"
  /\ datetime.fromisoformat "2020-01-02T03:04:05.000120" = Some (datetime.naive 2020 1 2 3 4 5 120)
  /\ datetime.fromisoformat "2020-01-02T03:04:05-05:30" = Some (datetime.mk 2020 1 2 3 4 5 0 (Some (-330)))
  /\ datetime.fromisoformat "2020-02-30T03:04:05" = None
  /\ datetime.utc_instant (datetime.naive 1 1 2 0 0 0 1) = 86400000001.
Proof. repeat split. Qed.
Example b64_ex : base64.b64encode EmptyString = EmptyString /\ base64.b64encode "f" = "Zg=="
  /\ base64.b64encode "fo" = "Zm8=" /\ base64.b64encode "foo" = "Zm9v"
  /\ base64.b64encode "foobar" = "Zm9vYmFy" /\ base64.b64decode "Zm9vYmE=" = Some "fooba"
  /\ base64.b64encode (String (ascii_of_nat 255) (String (ascii_of_nat 239) EmptyString)) = "/+8=".
Proof. repeat split. Qed.
Example json_ex :
  json.iterencode 2 (PyDict [("a", PyInt 1); ("b", PyList [PyBool true; PyStr ("x" ++ pystr.DQ ++ "y")]); ("c", PyList [])]) 0
  = (("{" ++ pystr.LF ++ "  " ++ pystr.DQ ++ "a" ++ pystr.DQ ++ ": 1," ++ pystr.LF ++ "  " ++ pystr.DQ ++ "b" ++ pystr.DQ ++ ": [" ++ pystr.LF ++ "    true,"
     ++ pystr.LF ++ "    " ++ pystr.DQ ++ "x\" ++ pystr.DQ ++ "y" ++ pystr.DQ ++ pystr.LF ++ "  ]," ++ pystr.LF ++ "  " ++ pystr.DQ ++ "c" ++ pystr.DQ ++ ": []" ++ pystr.LF ++ "}"), None).
Proof. reflexivity. Qed.
Example json_partial :
  json.iterencode 2 (PyDict [("a", PyInt (-1)); ("b", PyUID 3)]) 0
  = (("{" ++ pystr.LF ++ "  " ++ pystr.DQ ++ "a" ++ pystr.DQ ++ ": -1," ++ pystr.LF ++ "  " ++ pystr.DQ ++ "b" ++ pystr.DQ ++ ": "),
     Some (TypeError "Type non sérialisable en JSON : <class 'plistlib.UID'>")).
Proof. reflexivity. Qed.

(** * Properties *)

(** ** Strings *)

Lemma append_nil_r (s : string) : s ++ EmptyString = s.
Proof. induction s; simpl; congruence. Qed.

Lemma append_assoc (a b c : string) : (a ++ b) ++ c = a ++ b ++ c.
Proof. induction a; simpl; congruence. Qed.

Lemma length_append (a b : string) :
  String.length (a ++ b) = (String.length a + String.length b)%nat.
Proof. induction a; simpl; congruence. Qed.

(** Induction over a byte string three bytes at a time. *)
Lemma string_ind3 (P : string -> Prop) :
  P EmptyString ->
  (forall a, P (String a EmptyString)) ->
  (forall a b, P (String a (String b EmptyString))) ->
  (forall a b c r, P r -> P (String a (String b (String c r)))) ->
  forall s, P s.
Proof.
  intros H0 H1 H2 H3 s.
  assert (H : P s /\ (forall a, P (String a s)) /\ (forall a b, P (String a (String b s)))).
  { induction s as [|c r IH].
    - auto.
    - destruct IH as (Ha & Hb & Hc). repeat split; auto. }
  apply H.
Qed.

Lemma all_from_spec (p : Z -> bool) (fuel : nat) (z : Z) :
  all_from fuel z p = true ->
  forall i, z <= i < z + Z.of_nat fuel -> p i = true.
Proof.
  revert z. induction fuel as [|k IH]; intros z H i Hi.
  - simpl in Hi. lia.
  - simpl in H. apply andb_true_iff in H. destruct H as [Hz Hr].
    destruct (Z.eq_dec i z) as [->|Hne]; [exact Hz|].
    apply (IH (z + 1) Hr). lia.
Qed.

(** ** base64 *)

Lemma byte_val_range (a : ascii) : 0 <= base64.byte_val a < 256.
Proof.
  unfold base64.byte_val. pose proof (nat_ascii_bounded a). lia.
Qed.

Lemma byte_of_val (a : ascii) : base64.byte_of (base64.byte_val a) = a.
Proof.
  unfold base64.byte_of, base64.byte_val.
  rewrite Nat2Z.id. apply ascii_nat_embedding.
Qed.

Lemma dec_enc_char (i : Z) :
  0 <= i < 64 -> base64.dec_char (base64.enc_char i) = Some i.
Proof.
  intros Hi.
  assert (H : all_from 64 0
                (fun i => match base64.dec_char (base64.enc_char i) with
                          | Some j => Z.eqb j i
                          | None => false
                          end) = true) by (vm_compute; reflexivity).
  pose proof (all_from_spec _ _ _ H i ltac:(lia)) as Hc. simpl in Hc.
  destruct (base64.dec_char (base64.enc_char i)) as [j|]; [|discriminate].
  apply Z.eqb_eq in Hc. congruence.
Qed.

Lemma enc_char_not_pad (i : Z) :
  0 <= i < 64 -> Ascii.eqb (base64.enc_char i) base64.pad = false.
Proof.
  intros Hi.
  assert (H : all_from 64 0
                (fun i => negb (Ascii.eqb (base64.enc_char i) base64.pad)) = true)
    by (vm_compute; reflexivity).
  pose proof (all_from_spec _ _ _ H i ltac:(lia)) as Hc. simpl in Hc.
  now apply negb_true_iff in Hc.
Qed.

(** Bitwise or is addition when the low bits of the left operand are clear. *)
Lemma lor_low_clear (k x y : Z) :
  0 <= k -> 0 <= x -> x mod 2 ^ k = 0 -> 0 <= y < 2 ^ k -> Z.lor x y = x + y.
Proof.
  intros Hk Hx Hmod Hy.
  assert (Hland : Z.land x y = 0).
  { apply Z.bits_inj'; intros n Hn. rewrite Z.land_spec, Z.bits_0.
    destruct (Z.lt_ge_cases n k) as [Hlt|Hge].
    - replace (Z.testbit x n) with false; [reflexivity|].
      symmetry. rewrite <- (Z.mod_pow2_bits_low x k n) by lia.
      rewrite Hmod. apply Z.bits_0.
    - replace (Z.testbit y n) with false; [apply andb_false_r|].
      symmetry. destruct (Z.eq_dec y 0) as [->|Hy0]; [apply Z.bits_0|].
      apply Z.bits_above_log2; [lia|].
      apply Z.lt_le_trans with k; [|lia].
      apply Z.log2_lt_pow2; lia. }
  rewrite <- Z.lxor_lor by exact Hland.
  symmetry. apply Z.add_nocarry_lxor. exact Hland.
Qed.

Lemma land_63 (x : Z) : Z.land x 63 = x mod 64.
Proof. change 63 with (Z.ones 6). rewrite Z.land_ones by lia. reflexivity. Qed.

Lemma land_255 (x : Z) : Z.land x 255 = x mod 256.
Proof. change 255 with (Z.ones 8). rewrite Z.land_ones by lia. reflexivity. Qed.

Ltac pow2_consts :=
  change (2 ^ 18) with 262144 in *; change (2 ^ 16) with 65536 in *;
  change (2 ^ 12) with 4096 in *; change (2 ^ 8) with 256 in *;
  change (2 ^ 6) with 64 in *.

Ltac b64_arith :=
  rewrite ?land_63, ?land_255, ?Z.shiftr_div_pow2, ?Z.shiftl_mul_pow2 by lia;
  pow2_consts.

Ltac div_mod_lia := pow2_consts; Z.div_mod_to_equations; lia.

(** The 24-bit group of three bytes, as a sum. *)
Lemma group3_sum (a b c : Z) :
  0 <= a < 256 -> 0 <= b < 256 -> 0 <= c < 256 ->
  Z.lor (Z.lor (Z.shiftl a 16) (Z.shiftl b 8)) c = a * 65536 + b * 256 + c.
Proof.
  intros Ha Hb Hc. b64_arith.
  rewrite (lor_low_clear 16 (a * 65536) (b * 256)) by div_mod_lia.
  apply (lor_low_clear 8); div_mod_lia.
Qed.

(** The 24-bit group of four six-bit values, as a sum. *)
Lemma group4_sum (s1 s2 s3 s4 : Z) :
  0 <= s1 < 64 -> 0 <= s2 < 64 -> 0 <= s3 < 64 -> 0 <= s4 < 64 ->
  Z.lor (Z.lor (Z.lor (Z.shiftl s1 18) (Z.shiftl s2 12)) (Z.shiftl s3 6)) s4
  = s1 * 262144 + s2 * 4096 + s3 * 64 + s4.
Proof.
  intros H1 H2 H3 H4. b64_arith.
  rewrite (lor_low_clear 18 (s1 * 262144) (s2 * 4096)) by div_mod_lia.
  rewrite (lor_low_clear 12 (s1 * 262144 + s2 * 4096) (s3 * 64)) by div_mod_lia.
  apply (lor_low_clear 6); div_mod_lia.
Qed.

Lemma b64encode_1 (a : ascii) :
  base64.b64encode (String a EmptyString)
  = let n := Z.shiftl (base64.byte_val a) 16 in
    String (base64.enc_char (Z.shiftr n 18))
      (String (base64.enc_char (Z.land (Z.shiftr n 12) 63))
         (String base64.pad (String base64.pad EmptyString))).
Proof. reflexivity. Qed.

Lemma b64encode_2 (a b : ascii) :
  base64.b64encode (String a (String b EmptyString))
  = let n := Z.lor (Z.shiftl (base64.byte_val a) 16) (Z.shiftl (base64.byte_val b) 8) in
    String (base64.enc_char (Z.shiftr n 18))
      (String (base64.enc_char (Z.land (Z.shiftr n 12) 63))
         (String (base64.enc_char (Z.land (Z.shiftr n 6) 63))
            (String base64.pad EmptyString))).
Proof. reflexivity. Qed.

Lemma b64encode_3 (a b c : ascii) (r : string) :
  base64.b64encode (String a (String b (String c r)))
  = let n := Z.lor (Z.lor (Z.shiftl (base64.byte_val a) 16)
                          (Z.shiftl (base64.byte_val b) 8))
                   (base64.byte_val c) in
    String (base64.enc_char (Z.shiftr n 18))
      (String (base64.enc_char (Z.land (Z.shiftr n 12) 63))
         (String (base64.enc_char (Z.land (Z.shiftr n 6) 63))
            (String (base64.enc_char (Z.land n 63)) (base64.b64encode r)))).
Proof. reflexivity. Qed.

(** The four six-bit values of a 24-bit group and the way back. *)
Lemma group_split (a b c : Z) :
  0 <= a < 256 -> 0 <= b < 256 -> 0 <= c < 256 ->
  let n := a * 65536 + b * 256 + c in
  let s1 := n / 262144 in
  let s2 := (n / 4096) mod 64 in
  let s3 := (n / 64) mod 64 in
  let s4 := n mod 64 in
  (0 <= s1 < 64 /\ 0 <= s2 < 64 /\ 0 <= s3 < 64 /\ 0 <= s4 < 64)
  /\ s1 * 262144 + s2 * 4096 + s3 * 64 + s4 = n
  /\ (n / 65536) mod 256 = a /\ (n / 256) mod 256 = b /\ n mod 256 = c.
Proof. intros Ha Hb Hc. cbv zeta. repeat split; div_mod_lia. Qed.

Lemma decode_group_1 (a : ascii) :
  base64.b64decode (base64.b64encode (String a EmptyString)) = Some (String a EmptyString).
Proof.
  rewrite b64encode_1. cbv zeta.
  pose proof (byte_val_range a) as Ha.
  destruct (group_split (base64.byte_val a) 0 0 Ha ltac:(lia) ltac:(lia))
    as ((R1 & R2 & R3 & R4) & Hsum & Ba & Bb & Bc).
  rewrite !Z.mul_0_l, !Z.add_0_r in *.
  b64_arith.
  set (n := base64.byte_val a * 65536) in *.
  cbn [base64.b64decode].
  rewrite !dec_enc_char by assumption.
  rewrite Ascii.eqb_refl. cbn [andb].
  b64_arith.
  rewrite (lor_low_clear 18) by div_mod_lia.
  replace (n / 262144 * 262144 + n / 4096 mod 64 * 4096) with n by div_mod_lia.
  rewrite Ba, byte_of_val. reflexivity.
Qed.

Lemma decode_group_2 (a b : ascii) :
  base64.b64decode (base64.b64encode (String a (String b EmptyString)))
  = Some (String a (String b EmptyString)).
Proof.
  rewrite b64encode_2. cbv zeta.
  pose proof (byte_val_range a) as Ha. pose proof (byte_val_range b) as Hb.
  destruct (group_split (base64.byte_val a) (base64.byte_val b) 0 Ha Hb ltac:(lia))
    as ((R1 & R2 & R3 & R4) & Hsum & Ba & Bb & Bc).
  rewrite !Z.add_0_r in *.
  pose proof (group3_sum _ _ 0 Ha Hb ltac:(lia)) as E3.
  rewrite Z.lor_0_r, Z.add_0_r in E3. rewrite E3. clear E3.
  b64_arith.
  set (n := base64.byte_val a * 65536 + base64.byte_val b * 256) in *.
  cbn [base64.b64decode].
  rewrite !dec_enc_char by assumption.
  rewrite (enc_char_not_pad (n / 64 mod 64)) by assumption.
  rewrite Ascii.eqb_refl. cbn [andb].
  pose proof (group4_sum _ _ _ 0 R1 R2 R3 ltac:(lia)) as E4.
  rewrite Z.lor_0_r, Z.add_0_r in E4. rewrite E4. clear E4.
  replace (n / 262144 * 262144 + n / 4096 mod 64 * 4096 + n / 64 mod 64 * 64)
    with n by lia.
  b64_arith. rewrite Ba, Bb, !byte_of_val. reflexivity.
Qed.

Lemma decode_group_3 (a b c : ascii) (r : string) :
  base64.b64decode (base64.b64encode (String a (String b (String c r))))
  = match base64.b64decode (base64.b64encode r) with
    | Some tl => Some (String a (String b (String c tl)))
    | None => None
    end.
Proof.
  rewrite b64encode_3. cbv zeta.
  pose proof (byte_val_range a) as Ha. pose proof (byte_val_range b) as Hb.
  pose proof (byte_val_range c) as Hc.
  destruct (group_split _ _ _ Ha Hb Hc) as ((R1 & R2 & R3 & R4) & Hsum & Ba & Bb & Bc).
  rewrite (group3_sum _ _ _ Ha Hb Hc).
  b64_arith.
  set (n := base64.byte_val a * 65536 + base64.byte_val b * 256 + base64.byte_val c) in *.
  cbn [base64.b64decode].
  rewrite !dec_enc_char by assumption.
  rewrite (enc_char_not_pad (n / 64 mod 64)), (enc_char_not_pad (n mod 64)) by assumption.
  cbn [andb].
  rewrite group4_sum by assumption. rewrite Hsum.
  b64_arith. rewrite Ba, Bb, Bc, !byte_of_val.
  destruct (base64.b64decode (base64.b64encode r)); reflexivity.
Qed.

(** Decoding inverts encoding, for every byte string. *)
Lemma b64decode_b64encode (bs : string) :
  base64.b64decode (base64.b64encode bs) = Some bs.
Proof.
  induction bs as [|a|a b|a b c r IH] using string_ind3.
  - reflexivity.
  - apply decode_group_1.
  - apply decode_group_2.
  - rewrite decode_group_3, IH. reflexivity.
Qed.

Lemma enc_char_is_b64 (i : Z) : base64.is_b64_char (base64.enc_char i) = true.
Proof.
  unfold base64.enc_char.
  destruct (Z.to_nat i) as [|n] eqn:E.
  - reflexivity.
  - assert (H : forall k, base64.is_b64_char
                 (match String.get k base64.alphabet with
                  | Some c => c | None => "="%char end) = true).
    { intros k. do 65 (destruct k as [|k]; [reflexivity|]). reflexivity. }
    apply H.
Qed.

Lemma b64encode_chars (bs : string) :
  base64.all_chars base64.is_b64_char (base64.b64encode bs) = true.
Proof.
  induction bs as [|a|a b|a b c r IH] using string_ind3.
  - reflexivity.
  - rewrite b64encode_1. cbv zeta. cbn [base64.all_chars].
    rewrite !enc_char_is_b64. reflexivity.
  - rewrite b64encode_2. cbv zeta. cbn [base64.all_chars].
    rewrite !enc_char_is_b64. reflexivity.
  - rewrite b64encode_3. cbv zeta. cbn [base64.all_chars].
    rewrite !enc_char_is_b64, IH. reflexivity.
Qed.

Lemma b64encode_length (bs : string) :
  (String.length (base64.b64encode bs) mod 4 = 0)%nat.
Proof.
  induction bs as [|a|a b|a b c r IH] using string_ind3.
  - reflexivity.
  - reflexivity.
  - reflexivity.
  - rewrite b64encode_3. cbv zeta. cbn [String.length].
    change (S (S (S (S ?n)))) with (4 + n)%nat.
    rewrite <- (Nat.Div0.add_mod_idemp_l 4). exact IH.
Qed.

(** A character of the base64 alphabet is written to JSON as it is. *)
Lemma escape_b64_char (c : ascii) :
  base64.is_b64_char c = true -> json.escape_char c = String c EmptyString.
Proof.
  destruct c as [[] [] [] [] [] [] [] []]; vm_compute; intros H;
    first [reflexivity | discriminate].
Qed.

Lemma escape_all_chars (p : ascii -> bool) (s : string) :
  (forall c, p c = true -> json.escape_char c = String c EmptyString) ->
  base64.all_chars p s = true -> json.escape s = s.
Proof.
  intros Hp. induction s as [|c r IH]; simpl; intros H.
  - reflexivity.
  - apply andb_true_iff in H. destruct H as [Hc Hr].
    rewrite (Hp c Hc), (IH Hr). reflexivity.
Qed.

(** ** datetime *)

Lemma digit_cases (d : Z) :
  0 <= d < 10 ->
  d = 0 \/ d = 1 \/ d = 2 \/ d = 3 \/ d = 4 \/ d = 5 \/ d = 6 \/ d = 7 \/ d = 8 \/ d = 9.
Proof. lia. Qed.

Ltac by_digit H :=
  apply digit_cases in H;
  repeat (destruct H as [H|H]; [subst; reflexivity|]); subst; reflexivity.

Lemma digit_val_char (d : Z) :
  0 <= d < 10 -> datetime.digit_val (datetime.digit_char d) = Some d.
Proof. intros H. by_digit H. Qed.

Lemma escape_digit_char (d : Z) :
  0 <= d < 10 ->
  json.escape_char (datetime.digit_char d) = String (datetime.digit_char d) EmptyString.
Proof. intros H. by_digit H. Qed.

Lemma digit_char_not_dot (d : Z) :
  0 <= d < 10 -> Ascii.eqb (datetime.digit_char d) "."%char = false.
Proof. intros H. by_digit H. Qed.

Lemma mod10_range (z : Z) : 0 <= z mod 10 < 10.
Proof. apply Z.mod_pos_bound. lia. Qed.

Lemma parse_digits_2 (c1 c2 : ascii) (v1 v2 : Z) :
  datetime.digit_val c1 = Some v1 -> datetime.digit_val c2 = Some v2 ->
  datetime.parse_field 2 (String c1 (String c2 EmptyString)) = Some (10 * v1 + v2).
Proof.
  intros H1 H2. unfold datetime.parse_field.
  cbn [String.length Nat.eqb datetime.parse_digits_acc].
  rewrite H1, H2. f_equal.
Qed.

Lemma parse_digits_4 (c1 c2 c3 c4 : ascii) (v1 v2 v3 v4 : Z) :
  datetime.digit_val c1 = Some v1 -> datetime.digit_val c2 = Some v2 ->
  datetime.digit_val c3 = Some v3 -> datetime.digit_val c4 = Some v4 ->
  datetime.parse_field 4 (String c1 (String c2 (String c3 (String c4 EmptyString))))
  = Some (1000 * v1 + 100 * v2 + 10 * v3 + v4).
Proof.
  intros H1 H2 H3 H4. unfold datetime.parse_field.
  cbn [String.length Nat.eqb datetime.parse_digits_acc].
  rewrite H1, H2, H3, H4. f_equal. lia.
Qed.

Lemma parse_digits_6 (c1 c2 c3 c4 c5 c6 : ascii) (v1 v2 v3 v4 v5 v6 : Z) :
  datetime.digit_val c1 = Some v1 -> datetime.digit_val c2 = Some v2 ->
  datetime.digit_val c3 = Some v3 -> datetime.digit_val c4 = Some v4 ->
  datetime.digit_val c5 = Some v5 -> datetime.digit_val c6 = Some v6 ->
  datetime.parse_field 6
    (String c1 (String c2 (String c3 (String c4 (String c5 (String c6 EmptyString))))))
  = Some (100000 * v1 + 10000 * v2 + 1000 * v3 + 100 * v4 + 10 * v5 + v6).
Proof.
  intros H1 H2 H3 H4 H5 H6. unfold datetime.parse_field.
  cbn [String.length Nat.eqb datetime.parse_digits_acc].
  rewrite H1, H2, H3, H4, H5, H6. f_equal. lia.
Qed.

Lemma fmt_d_2 (z : Z) :
  datetime.fmt_d 2 z
  = String (datetime.digit_char ((z / 10) mod 10))
      (String (datetime.digit_char (z mod 10)) EmptyString).
Proof. reflexivity. Qed.

Lemma fmt_d_4 (z : Z) :
  datetime.fmt_d 4 z
  = String (datetime.digit_char ((z / 10 / 10 / 10) mod 10))
      (String (datetime.digit_char ((z / 10 / 10) mod 10))
         (String (datetime.digit_char ((z / 10) mod 10))
            (String (datetime.digit_char (z mod 10)) EmptyString))).
Proof. reflexivity. Qed.

Lemma fmt_d_6 (z : Z) :
  datetime.fmt_d 6 z
  = String (datetime.digit_char ((z / 10 / 10 / 10 / 10 / 10) mod 10))
      (String (datetime.digit_char ((z / 10 / 10 / 10 / 10) mod 10))
         (String (datetime.digit_char ((z / 10 / 10 / 10) mod 10))
            (String (datetime.digit_char ((z / 10 / 10) mod 10))
               (String (datetime.digit_char ((z / 10) mod 10))
                  (String (datetime.digit_char (z mod 10)) EmptyString))))).
Proof. reflexivity. Qed.

Lemma parse_fmt_2 (z : Z) :
  0 <= z < 100 -> datetime.parse_field 2 (datetime.fmt_d 2 z) = Some z.
Proof.
  intros H. rewrite fmt_d_2.
  rewrite (parse_digits_2 _ _ _ _ (digit_val_char _ (mod10_range _))
             (digit_val_char _ (mod10_range _))).
  f_equal. Z.div_mod_to_equations. lia.
Qed.

Lemma parse_fmt_4 (z : Z) :
  0 <= z < 10000 -> datetime.parse_field 4 (datetime.fmt_d 4 z) = Some z.
Proof.
  intros H. rewrite fmt_d_4.
  rewrite (parse_digits_4 _ _ _ _ _ _ _ _
             (digit_val_char _ (mod10_range _)) (digit_val_char _ (mod10_range _))
             (digit_val_char _ (mod10_range _)) (digit_val_char _ (mod10_range _))).
  f_equal. Z.div_mod_to_equations. lia.
Qed.

Lemma parse_fmt_6 (z : Z) :
  0 <= z < 1000000 -> datetime.parse_field 6 (datetime.fmt_d 6 z) = Some z.
Proof.
  intros H. rewrite fmt_d_6.
  rewrite (parse_digits_6 _ _ _ _ _ _ _ _ _ _ _ _
             (digit_val_char _ (mod10_range _)) (digit_val_char _ (mod10_range _))
             (digit_val_char _ (mod10_range _)) (digit_val_char _ (mod10_range _))
             (digit_val_char _ (mod10_range _)) (digit_val_char _ (mod10_range _))).
  f_equal. Z.div_mod_to_equations. lia.
Qed.

Lemma substring_0_0 (s : string) : String.substring 0 0 s = EmptyString.
Proof. destruct s; reflexivity. Qed.

Lemma substring_all (s : string) : String.substring 0 (String.length s) s = s.
Proof. induction s as [|c r IH]; simpl; [reflexivity|rewrite IH; reflexivity]. Qed.

Lemma fromiso_chars (y1 y2 y3 y4 mo1 mo2 d1 d2 h1 h2 mi1 mi2 s1 s2 : ascii)
      (tail : string) :
  datetime.fromisoformat
    (String y1 (String y2 (String y3 (String y4 (String "-"
      (String mo1 (String mo2 (String "-" (String d1 (String d2 (String "T"
        (String h1 (String h2 (String ":" (String mi1 (String mi2 (String ":"
          (String s1 (String s2 tail)))))))))))))))))))
  = match datetime.parse_field 4 (String y1 (String y2 (String y3 (String y4 EmptyString)))),
          datetime.parse_field 2 (String mo1 (String mo2 EmptyString)),
          datetime.parse_field 2 (String d1 (String d2 EmptyString)),
          datetime.parse_field 2 (String h1 (String h2 EmptyString)),
          datetime.parse_field 2 (String mi1 (String mi2 EmptyString)),
          datetime.parse_field 2 (String s1 (String s2 EmptyString)) with
    | Some y, Some mo, Some d, Some h, Some mi, Some sec =>
        let '(us, rest) :=
          if String.eqb (pystr.slice tail 0 1) "."
          then (datetime.parse_field 6 (pystr.slice tail 1 7),
                pystr.slice tail 7 (pystr.len tail))
          else (Some 0, tail) in
        match us, datetime.parse_offset rest with
        | Some us, Some tz =>
            let r := datetime.mk y mo d h mi sec us tz in
            if datetime.valid r then Some r else None
        | _, _ => None
        end
    | _, _, _, _, _, _ => None
    end.
Proof.
  unfold datetime.fromisoformat.
  assert (Hs : pystr.slice
    (String y1 (String y2 (String y3 (String y4 (String "-"
      (String mo1 (String mo2 (String "-" (String d1 (String d2 (String "T"
        (String h1 (String h2 (String ":" (String mi1 (String mi2 (String ":"
          (String s1 (String s2 tail))))))))))))))))))) 19
    (pystr.len (String y1 (String y2 (String y3 (String y4 (String "-"
      (String mo1 (String mo2 (String "-" (String d1 (String d2 (String "T"
        (String h1 (String h2 (String ":" (String mi1 (String mi2 (String ":"
          (String s1 (String s2 tail)))))))))))))))))))) = tail).
  { unfold pystr.slice, pystr.len. cbn [String.length].
    change (Z.to_nat 19) with 19%nat. cbn [String.substring].
    match goal with |- substring 0 ?n _ = _ =>
      replace n with (String.length tail) by lia end.
    apply substring_all. }
  rewrite Hs. cbv zeta.
  set (t1 := pystr.slice tail 0 1). set (t2 := pystr.slice tail 1 7).
  set (t3 := pystr.slice tail 7 (pystr.len tail)).
  unfold pystr.slice.
  repeat match goal with
         | |- context [Z.to_nat ?z] =>
             let v := eval vm_compute in (Z.to_nat z) in change (Z.to_nat z) with v
         end.
  cbn [String.substring String.eqb Ascii.eqb Bool.eqb andb].
  rewrite !substring_0_0.
  reflexivity.
Qed.

Lemma parse_offset_chars (sign h1 h2 m1 m2 : ascii) :
  sign = "+"%char \/ sign = "-"%char ->
  datetime.parse_offset
    (String sign (String h1 (String h2 (String ":" (String m1 (String m2 EmptyString))))))
  = match datetime.parse_field 2 (String h1 (String h2 EmptyString)),
          datetime.parse_field 2 (String m1 (String m2 EmptyString)) with
    | Some h, Some m =>
        Some (Some (if Ascii.eqb sign "-" then - (h * 60 + m) else h * 60 + m))
    | _, _ => None
    end.
Proof.
  intros Hs. unfold datetime.parse_offset.
  replace (String.eqb (String sign (String h1 (String h2 (String ":"
             (String m1 (String m2 EmptyString)))))) "Z") with false
    by (destruct Hs as [-> | ->]; reflexivity).
  replace (Ascii.eqb sign "+" || Ascii.eqb sign "-")%bool with true
    by (destruct Hs as [-> | ->]; reflexivity).
  unfold pystr.slice.
  repeat match goal with
         | |- context [Z.to_nat ?z] =>
             let v := eval vm_compute in (Z.to_nat z) in change (Z.to_nat z) with v
         end.
  cbn [String.substring String.eqb Ascii.eqb Bool.eqb andb String.length Nat.eqb].
  reflexivity.
Qed.

Lemma parse_offset_suffix (tz : option Z) :
  match tz with Some off => -1439 <= off <= 1439 | None => True end ->
  datetime.parse_offset (datetime.tz_suffix tz) = Some tz.
Proof.
  destruct tz as [off|]; [|reflexivity]. intros H.
  unfold datetime.tz_suffix, datetime.format_utcoffset.
  assert (Hh : 0 <= Z.abs off / 60 < 100) by (Z.div_mod_to_equations; lia).
  assert (Hm : 0 <= Z.abs off mod 60 < 100) by (Z.div_mod_to_equations; lia).
  pose proof (parse_fmt_2 _ Hh) as Ph. pose proof (parse_fmt_2 _ Hm) as Pm.
  rewrite !fmt_d_2 in *.
  destruct (off <? 0) eqn:E; cbn [String.append];
    rewrite parse_offset_chars by auto; rewrite Ph, Pm; cbn [Ascii.eqb Bool.eqb];
    do 2 f_equal.
  - apply Z.ltb_lt in E. Z.div_mod_to_equations. lia.
  - apply Z.ltb_ge in E. Z.div_mod_to_equations. lia.
Qed.

Lemma tz_suffix_no_dot (tz : option Z) :
  String.eqb (pystr.slice (datetime.tz_suffix tz) 0 1) "." = false.
Proof.
  destruct tz as [off|]; [|reflexivity].
  unfold datetime.tz_suffix, datetime.format_utcoffset.
  destruct (off <? 0); reflexivity.
Qed.

Lemma frac_slices (f1 f2 f3 f4 f5 f6 : ascii) (rest : string) :
  let tail := String "." (String f1 (String f2 (String f3 (String f4 (String f5
                (String f6 rest)))))) in
  String.eqb (pystr.slice tail 0 1) "." = true
  /\ pystr.slice tail 1 7
     = String f1 (String f2 (String f3 (String f4 (String f5 (String f6 EmptyString)))))
  /\ pystr.slice tail 7 (pystr.len tail) = rest.
Proof.
  cbv zeta. split; [|split].
  - reflexivity.
  - unfold pystr.slice. change (Z.to_nat 1) with 1%nat.
    change (Z.to_nat (7 - 1)) with 6%nat. cbn [String.substring].
    rewrite substring_0_0. reflexivity.
  - unfold pystr.slice, pystr.len. cbn [String.length].
    change (Z.to_nat 7) with 7%nat. cbn [String.substring].
    match goal with |- substring 0 ?n _ = _ =>
      replace n with (String.length rest) by lia end.
    apply substring_all.
Qed.

Lemma fromisoformat_isoformat (d : datetime.t) :
  datetime.valid d = true -> datetime.fromisoformat (datetime.isoformat d) = Some d.
Proof.
  intros Hv. pose proof Hv as Hv'.
  destruct d as [y mo dd h mi s us tz].
  unfold datetime.valid, datetime.in_range in Hv'. cbn [datetime.year datetime.month
    datetime.day datetime.hour datetime.minute datetime.second datetime.microsecond
    datetime.tzinfo] in Hv'.
  repeat (apply andb_true_iff in Hv'; destruct Hv' as [Hv' ?]).
  repeat match goal with
         | H : (_ && _)%bool = true |- _ => apply andb_true_iff in H; destruct H
         | H : (_ <=? _) = true |- _ => apply Z.leb_le in H
         end.
  assert (Hd : dd <= 31).
  { unfold datetime.days_in_month in *.
    repeat match goal with
           | H : context [if ?b then _ else _] |- _ => destruct b
           end; lia. }
  assert (Htz : match tz with Some off => -1439 <= off <= 1439 | None => True end).
  { destruct tz; [|exact I].
    match goal with H : (_ && _)%bool = true |- _ =>
      apply andb_true_iff in H; destruct H as [A B];
      apply Z.leb_le in A; apply Z.leb_le in B end. lia. }
  unfold datetime.isoformat.
  cbn [datetime.year datetime.month datetime.day datetime.hour datetime.minute
       datetime.second datetime.microsecond datetime.tzinfo].
  pose proof (parse_fmt_4 y ltac:(lia)) as Py.
  pose proof (parse_fmt_2 mo ltac:(lia)) as Pmo.
  pose proof (parse_fmt_2 dd ltac:(lia)) as Pd.
  pose proof (parse_fmt_2 h ltac:(lia)) as Ph.
  pose proof (parse_fmt_2 mi ltac:(lia)) as Pmi.
  pose proof (parse_fmt_2 s ltac:(lia)) as Ps.
  pose proof (parse_fmt_6 us ltac:(lia)) as Pus.
  rewrite fmt_d_4 in *. rewrite !fmt_d_2 in *. rewrite fmt_d_6 in *.
  cbn [String.append].
  rewrite fromiso_chars, Py, Pmo, Pd, Ph, Pmi, Ps.
  destruct (us =? 0) eqn:Eus.
  - apply Z.eqb_eq in Eus. subst us.
    cbn [String.append]. rewrite tz_suffix_no_dot.
    rewrite parse_offset_suffix by exact Htz.
    cbv zeta. rewrite Hv. reflexivity.
  - cbn [String.append].
    match goal with |- context [String "." (String ?f1 (String ?f2 (String ?f3
        (String ?f4 (String ?f5 (String ?f6 (datetime.tz_suffix tz)))))))] =>
      destruct (frac_slices f1 f2 f3 f4 f5 f6 (datetime.tz_suffix tz)) as (F1 & F2 & F3)
    end.
    cbv zeta in F1, F2, F3. rewrite F1, F2, F3, Pus.
    rewrite parse_offset_suffix by exact Htz.
    cbv zeta. rewrite Hv. reflexivity.
Qed.
Lemma escape_app (a b : string) : json.escape (a ++ b) = json.escape a ++ json.escape b.
Proof.
  induction a as [|c r IH]; simpl; [reflexivity|].
  rewrite IH, append_assoc. reflexivity.
Qed.

Lemma escape_fmt_d (w : nat) (z : Z) : json.escape (datetime.fmt_d w z) = datetime.fmt_d w z.
Proof.
  unfold datetime.fmt_d.
  assert (H : forall acc, json.escape acc = acc ->
                json.escape (datetime.fmt_d_acc w z acc) = datetime.fmt_d_acc w z acc).
  { revert z. induction w as [|k IH]; intros z acc Hacc; simpl; [exact Hacc|].
    apply IH. cbn [json.escape]. rewrite (escape_digit_char _ (mod10_range z)), Hacc.
    reflexivity. }
  apply H. reflexivity.
Qed.

Lemma escape_tz_suffix (tz : option Z) :
  json.escape (datetime.tz_suffix tz) = datetime.tz_suffix tz.
Proof.
  destruct tz as [off|]; [|reflexivity].
  unfold datetime.tz_suffix, datetime.format_utcoffset.
  rewrite !escape_app, !escape_fmt_d. destruct (off <? 0); reflexivity.
Qed.

Lemma escape_isoformat (d : datetime.t) :
  json.escape (datetime.isoformat d) = datetime.isoformat d.
Proof.
  unfold datetime.isoformat.
  rewrite !escape_app, !escape_fmt_d, escape_tz_suffix.
  destruct (datetime.microsecond d =? 0); [reflexivity|].
  rewrite escape_app, escape_fmt_d. reflexivity.
Qed.

Lemma iterencode_datetime (indent : Z) (d : datetime.t) (level : nat) :
  json.iterencode indent (PyDatetime d) level
  = (pystr.DQ ++ datetime.isoformat d ++ pystr.DQ, None).
Proof.
  cbn [json.iterencode convert_to_json_serializable json.encode_scalar].
  unfold json.emit, json.encode_basestring. rewrite escape_isoformat. reflexivity.
Qed.

Lemma iterencode_bytes (indent : Z) (bs : string) (level : nat) :
  json.iterencode indent (PyBytes bs) level
  = (pystr.DQ ++ base64.b64encode bs ++ pystr.DQ, None).
Proof.
  cbn [json.iterencode convert_to_json_serializable json.encode_scalar].
  unfold json.emit, json.encode_basestring.
  rewrite (escape_all_chars _ _ escape_b64_char (b64encode_chars bs)). reflexivity.
Qed.

Section PipelineFacts.
Variable load : string -> result pyobj.

Lemma convert_single_total (p : string) (out : option string) (indent : Z)
    (stream : bool) (w : world) :
  match fst (convert_single_plist_to_json load p out indent stream w) with
  | Return (p', ok, err) => p' = p /\ (ok = true <-> err = None)
  | Raise e => is_Exception e = false
  end.
Proof.
  unfold convert_single_plist_to_json, bind, py.try_except.
  destruct (load_plist load p w) as [[obj|e] w1].
  - cbn [ret].
    match goal with |- context [match ?m w1 with _ => _ end] => destruct (m w1) as [[u|e] w2] end.
    + cbn. split; [reflexivity|]. split; reflexivity.
    + destruct (is_Exception e) eqn:E; cbn.
      * split; [reflexivity|]. split; discriminate.
      * exact E.
  - destruct e; cbn; try (split; [reflexivity|split; discriminate]). reflexivity.
Qed.
End PipelineFacts.
(** ** Sorting *)



Lemma ascii_compare_N (a b : ascii) :
  Ascii.compare a b = N.compare (N_of_ascii a) (N_of_ascii b).
Proof. reflexivity. Qed.

Lemma string_compare_trans (a b c : string) :
  String.compare a b <> Gt -> String.compare b c <> Gt -> String.compare a c <> Gt.
Proof.
  revert b c. induction a as [|x a IH]; intros [|y b] [|z c]; simpl;
    try congruence.
  rewrite !ascii_compare_N.
  destruct (N.compare_spec (N_of_ascii x) (N_of_ascii y)) as [E1|L1|G1];
    destruct (N.compare_spec (N_of_ascii y) (N_of_ascii z)) as [E2|L2|G2];
    destruct (N.compare_spec (N_of_ascii x) (N_of_ascii z)) as [E3|L3|G3];
    try congruence; try lia; intros H1 H2.
  apply (IH b c); assumption.
Qed.

Lemma str_le_trans (a b c : string) :
  py.str_le a b = true -> py.str_le b c = true -> py.str_le a c = true.
Proof.
  unfold py.str_le, String.leb. intros H1 H2.
  pose proof (string_compare_trans a b c) as T.
  destruct (String.compare a b), (String.compare b c), (String.compare a c);
    try discriminate; try reflexivity; exfalso; apply T; congruence.
Qed.

Lemma str_le_total (a b : string) : py.str_le a b = false -> py.str_le b a = true.
Proof.
  intros H. destruct (String.leb_total a b) as [H'|H']; [|exact H'].
  unfold py.str_le in H. congruence.
Qed.

Lemma insert_perm (x : string) (l : list string) : Permutation (x :: l) (py.insert x l).
Proof.
  induction l as [|y r IH]; simpl; [apply Permutation_refl|].
  destruct (py.str_le x y); [apply Permutation_refl|].
  eapply perm_trans; [apply perm_swap|]. apply perm_skip. exact IH.
Qed.

Lemma sorted_perm (l : list string) : Permutation l (py.sorted l).
Proof.
  induction l as [|x r IH]; simpl; [apply perm_nil|].
  eapply perm_trans; [apply perm_skip; exact IH|apply insert_perm].
Qed.

Lemma insert_sorted (x : string) (l : list string) :
  StronglySorted str_le_prop l -> StronglySorted str_le_prop (py.insert x l).
Proof.
  induction 1 as [|y r Hs IH Hall]; simpl.
  - repeat constructor.
  - destruct (py.str_le x y) eqn:E.
    + constructor; [constructor; assumption|].
      constructor; [exact E|].
      eapply Forall_impl; [|exact Hall]. intros z Hz. eapply str_le_trans; eassumption.
    + constructor; [exact IH|].
      eapply Permutation_Forall; [apply insert_perm|].
      constructor; [apply str_le_total; exact E|exact Hall].
Qed.

Lemma sorted_sorted (l : list string) : StronglySorted str_le_prop (py.sorted l).
Proof.
  induction l as [|x r IH]; simpl; [constructor|]. apply insert_sorted. exact IH.
Qed.

(** Sorting a sorted list changes nothing. *)
Lemma insert_head (x : string) (l : list string) :
  Forall (str_le_prop x) l -> py.insert x l = x :: l.
Proof.
  destruct l as [|y r]; [reflexivity|]. intros H. inversion H; subst.
  simpl. unfold str_le_prop in *. now rewrite H2.
Qed.

Lemma sorted_idem (l : list string) :
  StronglySorted str_le_prop l -> py.sorted l = l.
Proof.
  induction 1 as [|x r Hs IH Hall]; [reflexivity|].
  simpl. rewrite IH. apply insert_head. exact Hall.
Qed.

(** ** The directory tree *)

Lemma find_set_entry (name name' : string) (n : fs.node) (es : list (string * fs.node)) :
  fs.find_entry name' (fs.set_entry name n es)
  = if String.eqb name name' then Some n else fs.find_entry name' es.
Proof.
  induction es as [|[k m] r IH]; simpl.
  - destruct (String.eqb name name') eqn:E; [reflexivity|].
    reflexivity.
  - destruct (String.eqb k name) eqn:Ek; simpl.
    + apply String.eqb_eq in Ek. subst k.
      destruct (String.eqb name name'); reflexivity.
    + rewrite IH. destruct (String.eqb k name') eqn:Ek'; [|reflexivity].
      apply String.eqb_eq in Ek'. subst k. rewrite String.eqb_sym, Ek. reflexivity.
Qed.

Lemma set_entry_same (name : string) (n : fs.node) (es : list (string * fs.node)) :
  fs.find_entry name es = Some n -> fs.set_entry name n es = es.
Proof.
  induction es as [|[k m] r IH]; simpl; [discriminate|].
  destruct (String.eqb k name) eqn:E.
  - intros [= ->]. reflexivity.
  - intros H. rewrite (IH H). reflexivity.
Qed.

Lemma lookup_dir_cons (es : list (string * fs.node)) (c : string) (q : list string) :
  fs.lookup (fs.Dir es) (c :: q)
  = match fs.find_entry c es with Some m => fs.lookup m q | None => fs.ENOENT end.
Proof. reflexivity. Qed.

Lemma lookup_file_cons (d c : string) (q : list string) :
  fs.lookup (fs.File d) (c :: q) = fs.ENOTDIR.
Proof. reflexivity. Qed.

Lemma mkdir_p_dir (es : list (string * fs.node)) (c : string) (rest : list string) :
  fs.mkdir_p (fs.Dir es) (c :: rest)
  = match fs.mkdir_p (match fs.find_entry c es with Some m => m | None => fs.Dir [] end) rest with
    | Some m' => Some (fs.Dir (fs.set_entry c m' es))
    | None => None
    end.
Proof. reflexivity. Qed.

Lemma mkdir_p_file (d : string) (comps : list string) : fs.mkdir_p (fs.File d) comps = None.
Proof. destruct comps; reflexivity. Qed.

Lemma mkdir_p_is_dir (comps : list string) (n n' : fs.node) :
  fs.mkdir_p n comps = Some n' -> fs.is_dir n = true /\ fs.is_dir n' = true.
Proof.
  destruct n as [d|es]; [rewrite mkdir_p_file; discriminate|].
  destruct comps as [|c rest]; simpl.
  - intros [= <-]. auto.
  - destruct (fs.mkdir_p _ rest); [|discriminate]. intros [= <-]. auto.
Qed.

(** [mkdir -p] makes its target a directory. *)
Lemma mkdir_p_target (comps : list string) (n n' : fs.node) :
  fs.mkdir_p n comps = Some n' -> dir_at n' comps.
Proof.
  revert n n'. induction comps as [|c rest IH]; intros n n' H.
  - apply mkdir_p_is_dir in H. destruct H as [_ H]. destruct n'; [discriminate|].
    eexists. reflexivity.
  - destruct n as [d|es]; [discriminate|]. rewrite mkdir_p_dir in H.
    destruct (fs.mkdir_p _ rest) as [m'|] eqn:E; [|discriminate].
    injection H as <-. unfold dir_at. rewrite lookup_dir_cons, find_set_entry, String.eqb_refl.
    apply (IH _ _ E).
Qed.

(** [mkdir -p] keeps every directory. *)
Lemma mkdir_p_keeps_dirs (comps : list string) (n n' : fs.node) :
  fs.mkdir_p n comps = Some n' -> forall q, dir_at n q -> dir_at n' q.
Proof.
  revert n n'. induction comps as [|c rest IH]; intros n n' H q Hq.
  - destruct n; [discriminate|]. simpl in H. injection H as <-. exact Hq.
  - destruct n as [d|es]; [discriminate|]. rewrite mkdir_p_dir in H.
    destruct (fs.mkdir_p _ rest) as [m'|] eqn:E; [|discriminate].
    injection H as <-. destruct q as [|k q'].
    + eexists. reflexivity.
    + unfold dir_at in *. rewrite lookup_dir_cons in *. rewrite find_set_entry.
      destruct (String.eqb c k) eqn:Ek; [|exact Hq].
      apply String.eqb_eq in Ek. subst k.
      destruct (fs.find_entry c es) as [x|]; [|destruct Hq; discriminate].
      apply (IH _ _ E). exact Hq.
Qed.

(** [mkdir -p] keeps every file, and adds none. *)
Lemma mkdir_p_files (comps : list string) (n n' : fs.node) :
  fs.mkdir_p n comps = Some n' -> forall q d, file_at n' q d <-> file_at n q d.
Proof.
  revert n n'. induction comps as [|c rest IH]; intros n n' H q d.
  - destruct n; [discriminate|]. simpl in H. injection H as <-. reflexivity.
  - destruct n as [d0|es]; [discriminate|]. rewrite mkdir_p_dir in H.
    destruct (fs.mkdir_p _ rest) as [m'|] eqn:E; [|discriminate].
    injection H as <-. destruct q as [|k q'].
    + unfold file_at. simpl. split; discriminate.
    + unfold file_at in *. rewrite !lookup_dir_cons, find_set_entry.
      destruct (String.eqb c k) eqn:Ek; [|reflexivity].
      apply String.eqb_eq in Ek. subst k.
      rewrite (IH _ _ E q' d).
      destruct (fs.find_entry c es) as [x|]; [reflexivity|].
      destruct q'; simpl; split; discriminate.
Qed.

(** On an existing directory [mkdir -p] changes nothing. *)
Lemma mkdir_p_existing (comps : list string) (n : fs.node) :
  dir_at n comps -> fs.mkdir_p n comps = Some n.
Proof.
  revert n. induction comps as [|c rest IH]; intros n [es H].
  - simpl in H. injection H as ->. reflexivity.
  - destruct n as [d|es0]; [discriminate|]. rewrite lookup_dir_cons in H.
    rewrite mkdir_p_dir. destruct (fs.find_entry c es0) as [x|] eqn:Ex; [|discriminate].
    rewrite (IH x) by (eexists; exact H). rewrite set_entry_same by exact Ex. reflexivity.
Qed.
Lemma update_last (es : list (string * fs.node)) (c : string)
    (f : option fs.node -> option fs.node) :
  fs.update (fs.Dir es) [c] f
  = match f (fs.find_entry c es) with
    | Some m' => Some (fs.Dir (fs.set_entry c m' es))
    | None => None
    end.
Proof. reflexivity. Qed.

Lemma update_cons (es : list (string * fs.node)) (c c2 : string) (rest : list string)
    (f : option fs.node -> option fs.node) :
  fs.update (fs.Dir es) (c :: c2 :: rest) f
  = match fs.find_entry c es with
    | Some m =>
        match fs.update m (c2 :: rest) f with
        | Some m' => Some (fs.Dir (fs.set_entry c m' es))
        | None => None
        end
    | None => None
    end.
Proof. reflexivity. Qed.

Lemma update_file (d : string) (comps : list string) (f : option fs.node -> option fs.node) :
  fs.update (fs.File d) comps f = None.
Proof. destruct comps; reflexivity. Qed.

(** The node written by [update] is found at its path. *)
Lemma update_target (comps : list string) (n n' : fs.node)
    (f : option fs.node -> option fs.node) :
  fs.update n comps f = Some n' ->
  exists m', f (found_opt (fs.lookup n comps)) = Some m' /\ fs.lookup n' comps = fs.Found m'.
Proof.
  revert n n'. induction comps as [|c rest IH]; intros n n' H; [discriminate|].
  destruct n as [d|es]; [rewrite update_file in H; discriminate|].
  destruct rest as [|c2 rest].
  - rewrite update_last in H. destruct (f (fs.find_entry c es)) as [m'|] eqn:E; [|discriminate].
    injection H as <-. exists m'. split.
    + rewrite lookup_dir_cons. destruct (fs.find_entry c es); exact E.
    + rewrite lookup_dir_cons, find_set_entry, String.eqb_refl. reflexivity.
  - rewrite update_cons in H. destruct (fs.find_entry c es) as [m|] eqn:Em; [|discriminate].
    destruct (fs.update m (c2 :: rest) f) as [m'|] eqn:E; [|discriminate].
    injection H as <-. destruct (IH _ _ E) as (x & Hx & Hl). exists x. split.
    + rewrite lookup_dir_cons, Em. exact Hx.
    + rewrite lookup_dir_cons, find_set_entry, String.eqb_refl. exact Hl.
Qed.

Lemma dir_at_is_dir (n : fs.node) (q : list string) : dir_at n q -> fs.is_dir n = true.
Proof.
  intros [es H]. destruct n; [|reflexivity].
  destruct q; simpl in H; discriminate.
Qed.

Lemma file_at_nonempty_dir (n : fs.node) (c : string) (q : list string) (d : string) :
  file_at n (c :: q) d -> fs.is_dir n = true.
Proof. destruct n; [discriminate|reflexivity]. Qed.

(** Writing a file where no directory stands keeps every directory. *)
Lemma update_keeps_dirs (comps : list string) (n n' : fs.node)
    (f : option fs.node -> option fs.node) :
  fs.update n comps f = Some n' -> ~ dir_at n comps ->
  forall q, dir_at n q -> dir_at n' q.
Proof.
  revert n n'. induction comps as [|c rest IH]; intros n n' H Hnd q Hq; [discriminate|].
  destruct n as [d|es]; [rewrite update_file in H; discriminate|].
  destruct q as [|k q']; [destruct n'; [|eexists; reflexivity]|].
  { destruct rest; [rewrite update_last in H|rewrite update_cons in H];
      repeat match type of H with
             | match ?x with _ => _ end = _ => destruct x; try discriminate
             end. }
  unfold dir_at in Hq |- *. rewrite lookup_dir_cons in Hq.
  destruct rest as [|c2 rest].
  - rewrite update_last in H. destruct (f (fs.find_entry c es)) as [m'|]; [|discriminate].
    injection H as <-. rewrite lookup_dir_cons, find_set_entry.
    destruct (String.eqb c k) eqn:Ek; [|exact Hq].
    apply String.eqb_eq in Ek. subst k. exfalso. apply Hnd.
    unfold dir_at. rewrite lookup_dir_cons.
    destruct (fs.find_entry c es) as [x|]; [|destruct Hq; discriminate].
    assert (Hx : fs.is_dir x = true) by (apply (dir_at_is_dir x q'); exact Hq).
    destruct x; [discriminate|]. eexists. reflexivity.
  - rewrite update_cons in H. destruct (fs.find_entry c es) as [m|] eqn:Em; [|discriminate].
    destruct (fs.update m (c2 :: rest) f) as [m'|] eqn:E; [|discriminate].
    injection H as <-. rewrite lookup_dir_cons, find_set_entry.
    destruct (String.eqb c k) eqn:Ek; [|exact Hq].
    apply String.eqb_eq in Ek. subst k. rewrite Em in Hq.
    apply (IH _ _ E); [|exact Hq].
    intros Hd. apply Hnd. unfold dir_at. rewrite lookup_dir_cons, Em. exact Hd.
Qed.

(** Writing a file where no directory stands leaves every other file as it
    was, and adds no other file. *)
Lemma update_other_files (comps : list string) (n n' : fs.node)
    (f : option fs.node -> option fs.node) :
  fs.update n comps f = Some n' -> ~ dir_at n comps ->
  (forall old m', f old = Some m' -> fs.is_dir m' = false) ->
  forall q d, q <> comps -> (file_at n' q d <-> file_at n q d).
Proof.
  revert n n'. induction comps as [|c rest IH]; intros n n' H Hnd Hf q d Hne; [discriminate|].
  destruct n as [d0|es]; [rewrite update_file in H; discriminate|].
  destruct q as [|k q'].
  { assert (Hn' : fs.is_dir n' = true).
    { destruct rest; [rewrite update_last in H|rewrite update_cons in H];
        repeat match type of H with
               | match ?x with _ => _ end = _ => destruct x; try discriminate
               end; injection H as <-; reflexivity. }
    destruct n'; [discriminate|]. unfold file_at. simpl. split; discriminate. }
  unfold file_at. rewrite lookup_dir_cons.
  destruct rest as [|c2 rest].
  - rewrite update_last in H. destruct (f (fs.find_entry c es)) as [m'|] eqn:Efm; [|discriminate].
    injection H as <-. rewrite lookup_dir_cons, find_set_entry.
    destruct (String.eqb c k) eqn:Ek; [|reflexivity].
    apply String.eqb_eq in Ek. subst k.
    destruct q' as [|k2 q'']; [congruence|].
    pose proof (Hf _ _ Efm) as Hm'. destruct m'; [|discriminate].
    rewrite lookup_file_cons.
    destruct (fs.find_entry c es) as [x|] eqn:Ex; [|split; discriminate].
    destruct x as [dx|ex]; [rewrite lookup_file_cons; reflexivity|].
    exfalso. apply Hnd. unfold dir_at. rewrite lookup_dir_cons, Ex. eexists. reflexivity.
  - rewrite update_cons in H. destruct (fs.find_entry c es) as [m|] eqn:Em; [|discriminate].
    destruct (fs.update m (c2 :: rest) f) as [m'|] eqn:E; [|discriminate].
    injection H as <-. rewrite lookup_dir_cons, find_set_entry.
    destruct (String.eqb c k) eqn:Ek; [|reflexivity].
    apply String.eqb_eq in Ek. subst k. rewrite Em.
    apply (IH _ _ E); [|exact Hf|congruence].
    intros Hd. apply Hnd. unfold dir_at. rewrite lookup_dir_cons, Em. exact Hd.
Qed.

Create HintDb forward.
(** ** Worlds *)

Lemma evolves_refl (w : world) : evolves w w.
Proof.
  repeat split; auto.
  - exists []. symmetry. apply app_nil_r.
  - exists EmptyString. symmetry. apply append_nil_r.
  - exists EmptyString. symmetry. apply append_nil_r.
Qed.

Lemma evolves_trans (w1 w2 w3 : world) : evolves w1 w2 -> evolves w2 w3 -> evolves w1 w3.
Proof.
  intros (C1 & D1 & [l1 L1] & [o1 O1] & [e1 E1]) (C2 & D2 & [l2 L2] & [o2 O2] & [e2 E2]).
  repeat split.
  - congruence.
  - auto.
  - exists (l1 ++ l2)%list. rewrite L2, L1, app_assoc. reflexivity.
  - exists (o1 ++ o2). rewrite O2, O1, append_assoc. reflexivity.
  - exists (e1 ++ e2). rewrite E2, E1, append_assoc. reflexivity.
Qed.

Lemma forward_ret {A} (a : A) : forward (ret a).
Proof. intros w. apply evolves_refl. Qed.

Lemma forward_raise {A} (e : exn) : forward (@raise A e).
Proof. intros w. apply evolves_refl. Qed.

Lemma forward_lift {A} (r : result A) : forward (lift r).
Proof. intros w. apply evolves_refl. Qed.

Lemma forward_bind {A B} (m : M A) (k : A -> M B) :
  forward m -> (forall a, forward (k a)) -> forward (bind m k).
Proof.
  intros Hm Hk w. unfold bind. specialize (Hm w).
  destruct (m w) as [[a|e] w1]; simpl in *; [|exact Hm].
  eapply evolves_trans; [exact Hm|apply Hk].
Qed.

Lemma forward_try {A} (m : M A) (h : exn -> option (M A)) :
  forward m -> (forall e k, h e = Some k -> forward k) -> forward (py.try_except m h).
Proof.
  intros Hm Hh w. unfold py.try_except. specialize (Hm w).
  destruct (m w) as [[a|e] w1]; simpl in *; [exact Hm|].
  destruct (h e) as [k|] eqn:E; [|exact Hm].
  eapply evolves_trans; [exact Hm|apply (Hh _ _ E)].
Qed.

Lemma forward_trace (s : syscall) : forward (trace s).
Proof.
  intros w. repeat split; simpl; auto.
  - eexists. reflexivity.
  - exists EmptyString. symmetry. apply append_nil_r.
  - exists EmptyString. symmetry. apply append_nil_r.
Qed.

Lemma forward_write_stdout (s : string) : forward (write_stdout s).
Proof.
  intros w. repeat split; simpl; auto.
  - exists []. symmetry. apply app_nil_r.
  - eexists. reflexivity.
  - exists EmptyString. symmetry. apply append_nil_r.
Qed.

Lemma forward_print (s : string) : forward (print s).
Proof. apply forward_write_stdout. Qed.

Lemma forward_eprint (s : string) : forward (eprint s).
Proof.
  intros w. repeat split; simpl; auto.
  - exists []. symmetry. apply app_nil_r.
  - exists EmptyString. symmetry. apply append_nil_r.
  - eexists. reflexivity.
Qed.

Lemma forward_get_cwd : forward get_cwd.
Proof. intros w. apply evolves_refl. Qed.

(** A step that replaces the tree and keeps its directories. *)
Lemma evolves_set_root (r : fs.node) (w : world) :
  (forall q, dir_at (root w) q -> dir_at r q) -> evolves w (set_root r w).
Proof.
  intros H. repeat split; simpl; auto.
  - exists []. symmetry. apply app_nil_r.
  - exists EmptyString. symmetry. apply append_nil_r.
  - exists EmptyString. symmetry. apply append_nil_r.
Qed.

Lemma forward_pure {A} (f : world -> result A) : forward (fun w => (f w, w)).
Proof. intros w. apply evolves_refl. Qed.

Lemma forward_exists (p : string) : forward (os.exists_ p).
Proof. intros w. apply evolves_refl. Qed.

Lemma forward_isdir (p : string) : forward (os.isdir p).
Proof. intros w. apply evolves_refl. Qed.

Lemma forward_makedirs (p : string) : forward (os.makedirs p).
Proof.
  unfold os.makedirs. apply forward_bind; [apply forward_trace|]. intros _ w.
  destruct (os.resolve w p) as [comps|]; simpl; [|apply evolves_refl].
  destruct (fs.mkdir_p (root w) comps) as [r|] eqn:E; simpl; [|apply evolves_refl].
  apply evolves_set_root. apply (mkdir_p_keeps_dirs _ _ _ E).
Qed.

Lemma forward_scandir (p : string) : forward (os.scandir p).
Proof.
  unfold os.scandir. apply forward_bind; [apply forward_trace|]. intros _ w.
  destruct (os.stat w p) as [[d|es]| |]; apply evolves_refl.
Qed.

Lemma forward_walk (p : string) : forward (os.walk p).
Proof.
  intros w. unfold os.walk. repeat split; simpl; auto.
  - eexists. reflexivity.
  - exists EmptyString. symmetry. apply append_nil_r.
  - exists EmptyString. symmetry. apply append_nil_r.
Qed.

Lemma forward_read_file (p : string) : forward (os.read_file p).
Proof.
  unfold os.read_file. apply forward_bind; [apply forward_trace|]. intros _ w.
  destruct (os.stat w p) as [[d|es]| |]; apply evolves_refl.
Qed.

Lemma stat_resolve (w : world) (p : string) (comps : list string) :
  os.resolve w p = Some comps -> os.stat w p = fs.lookup (root w) comps.
Proof. unfold os.stat. intros ->. reflexivity. Qed.

Lemma forward_open_write (p : string) : forward (os.open_write p).
Proof.
  unfold os.open_write. apply forward_bind; [apply forward_trace|]. intros _ w.
  destruct (os.resolve w p) as [comps|] eqn:R.
  - rewrite (stat_resolve _ _ _ R).
    destruct (fs.lookup (root w) comps) as [[d|es]| |] eqn:L; try apply evolves_refl;
      (destruct (fs.update (root w) comps _) as [r|] eqn:U; [|apply evolves_refl];
       apply evolves_set_root; apply (update_keeps_dirs _ _ _ _ U);
       intros [es' H]; congruence).
  - destruct (os.stat w p) as [[d|es]| |]; apply evolves_refl.
Qed.

Lemma forward_append_file (p text : string) : forward (os.append_file p text).
Proof.
  intros w. unfold os.append_file.
  destruct (os.resolve w p) as [comps|]; [|apply evolves_refl].
  destruct (fs.update (root w) comps _) as [r|] eqn:U; [|apply evolves_refl].
  apply evolves_set_root. apply (update_keeps_dirs _ _ _ _ U).
  destruct (update_target _ _ _ _ U) as (m' & Hf & _).
  intros [es H]. rewrite H in Hf. discriminate.
Qed.

Global Hint Resolve forward_ret forward_raise forward_lift forward_trace
  forward_write_stdout forward_print forward_eprint forward_get_cwd forward_exists
  forward_isdir forward_makedirs forward_scandir forward_walk forward_read_file
  forward_open_write forward_append_file : forward.

Ltac forward_tac :=
  repeat first
    [ progress auto with forward
    | apply forward_bind; [|intros ?]
    | apply forward_try; [|intros ? ? ?]
    | match goal with
      | |- forward (if ?b then _ else _) => destruct b
      | |- forward (match ?x with _ => _ end) => destruct x
      | |- forward (let '(_, _) := ?x in _) => destruct x
      end ].

Lemma forward_output_path_of (p base : string) (od : option string) :
  forward (output_path_of p base od).
Proof. unfold output_path_of. forward_tac. Qed.

Lemma forward_compute_output_path (p base : string) (od : option string) :
  forward (compute_output_path p base od).
Proof.
  unfold compute_output_path, ensure_directory.
  apply forward_bind; [apply forward_output_path_of|]. intros out. forward_tac.
Qed.

Lemma forward_json_dump_stdout (obj : pyobj) (indent : Z) :
  forward (json_dump_stdout obj indent).
Proof. unfold json_dump_stdout. forward_tac. Qed.

Lemma forward_json_dump_file (out : string) (obj : pyobj) (indent : Z) :
  forward (json_dump_file out obj indent).
Proof. unfold json_dump_file. forward_tac. Qed.

Global Hint Resolve forward_output_path_of forward_compute_output_path
  forward_json_dump_stdout forward_json_dump_file : forward.

Section ForwardPipeline.
Variable load : string -> result pyobj.

Lemma forward_load_plist (p : string) : forward (load_plist load p).
Proof. unfold load_plist. forward_tac. Qed.

Lemma forward_convert_single (p : string) (out : option string) (indent : Z)
    (stream : bool) :
  forward (convert_single_plist_to_json load p out indent stream).
Proof.
  unfold convert_single_plist_to_json, ensure_directory.
  apply forward_bind.
  - apply forward_try.
    + apply forward_bind; [apply forward_load_plist|]. intros; auto with forward.
    + intros e k H. destruct e; simpl in H; try discriminate;
        injection H as <-; auto with forward.
  - intros [obj|failure]; [|auto with forward].
    apply forward_try.
    + forward_tac.
    + intros e k H. destruct (is_Exception e); [|discriminate].
      injection H as <-. auto with forward.
Qed.

Lemma forward_main_loop (files : list string) (base : string) (od : option string)
    (indent : Z) (results : list outcome) :
  forward (main_loop load files base od indent results).
Proof.
  revert results. induction files as [|f rest IH]; intros results; simpl.
  - auto with forward.
  - apply forward_bind; [apply forward_compute_output_path|]. intros out.
    apply forward_bind; [apply forward_convert_single|]. intros r. apply IH.
Qed.

End ForwardPipeline.

(** ** System calls *)

Lemma makedirs_spec (p : string) (w : world) :
  os.makedirs p w
  = match os.resolve w p with
    | None => (Raise (os.enoent p), logged (SysMakedirs p) w)
    | Some comps =>
        match fs.mkdir_p (root w) comps with
        | Some r => (Return tt, set_root r (logged (SysMakedirs p) w))
        | None =>
            (Raise (match fs.lookup (root w) comps with
                    | fs.Found _ => os.eexist p
                    | _ => os.enotdir p
                    end), logged (SysMakedirs p) w)
        end
    end.
Proof. reflexivity. Qed.

Lemma read_file_spec (p : string) (w : world) :
  os.read_file p w
  = (match os.stat w p with
     | fs.Found (fs.File data) => Return data
     | fs.Found (fs.Dir _) => Raise (os.eisdir p)
     | fs.ENOENT => Raise (os.enoent p)
     | fs.ENOTDIR => Raise (os.enotdir p)
     end, logged (SysOpenRead p) w).
Proof.
  unfold os.read_file, bind, trace. simpl.
  change (os.stat (mkWorld (root w) (cwd w) (stdout w) (stderr w)
                     (log w ++ [SysOpenRead p])) p) with (os.stat w p).
  destruct (os.stat w p) as [[d|es]| |]; reflexivity.
Qed.

Lemma open_write_spec (p : string) (w : world) :
  os.open_write p w
  = match os.resolve w p with
    | None => (Raise (os.enoent p), logged (SysOpenWrite p) w)
    | Some comps =>
        match fs.lookup (root w) comps with
        | fs.Found (fs.Dir _) => (Raise (os.eisdir p), logged (SysOpenWrite p) w)
        | fs.ENOTDIR => (Raise (os.enotdir p), logged (SysOpenWrite p) w)
        | _ =>
            match fs.update (root w) comps (fun _ => Some (fs.File EmptyString)) with
            | Some r => (Return tt, set_root r (logged (SysOpenWrite p) w))
            | None => (Raise (os.enoent p), logged (SysOpenWrite p) w)
            end
        end
    end.
Proof.
  unfold os.open_write, bind, trace. simpl.
  change (os.stat (mkWorld (root w) (cwd w) (stdout w) (stderr w)
                     (log w ++ [SysOpenWrite p])) p) with (os.stat w p).
  change (os.resolve (mkWorld (root w) (cwd w) (stdout w) (stderr w)
                     (log w ++ [SysOpenWrite p])) p) with (os.resolve w p).
  unfold os.stat.
  destruct (os.resolve w p) as [comps|]; [|reflexivity].
  destruct (fs.lookup (root w) comps) as [[d|es]| |]; reflexivity.
Qed.

Lemma load_plist_spec (load : string -> result pyobj) (p : string) (w : world) :
  load_plist load p w
  = (match os.stat w p with
     | fs.Found (fs.File data) => load data
     | fs.Found (fs.Dir _) => Raise (os.eisdir p)
     | fs.ENOENT => Raise (os.enoent p)
     | fs.ENOTDIR => Raise (os.enotdir p)
     end, logged (SysOpenRead p) w).
Proof.
  unfold load_plist, bind. rewrite read_file_spec.
  destruct (os.stat w p) as [[d|es]| |]; reflexivity.
Qed.
Lemma update_exists (comps : list string) (n : fs.node) (x y : fs.node)
    (f : option fs.node -> option fs.node) :
  comps <> [] -> fs.lookup n comps = fs.Found x -> f (Some x) = Some y ->
  exists n', fs.update n comps f = Some n'.
Proof.
  revert n. induction comps as [|c rest IH]; intros n Hne Hl Hf; [congruence|].
  destruct n as [d|es]; [discriminate|]. rewrite lookup_dir_cons in Hl.
  destruct (fs.find_entry c es) as [m|] eqn:Em; [|discriminate].
  destruct rest as [|c2 rest].
  - simpl in Hl. injection Hl as ->. rewrite update_last, Em, Hf. eexists. reflexivity.
  - rewrite update_cons, Em.
    destruct (IH m ltac:(discriminate) Hl Hf) as [m' ->]. eexists. reflexivity.
Qed.

Lemma files_same_refl (w : world) : files_same w w.
Proof. intros q d. reflexivity. Qed.

Lemma files_same_root (w w' : world) : root w' = root w -> files_same w w'.
Proof. intros H q d. rewrite H. reflexivity. Qed.

Lemma append_file_spec (p text : string) (w : world) :
  os.append_file p text w
  = match os.resolve w p with
    | Some comps =>
        match fs.update (root w) comps
                (fun old => match old with
                            | Some (fs.File data) => Some (fs.File (data ++ text))
                            | _ => None
                            end) with
        | Some r => (Return tt, set_root r w)
        | None => (Raise (os.enoent p), w)
        end
    | None => (Raise (os.enoent p), w)
    end.
Proof. reflexivity. Qed.

(** What [json_dump_file] leaves behind: either the file could not be
    opened and no file changed, or the file holds exactly the text the
    encoder produced, complete or not. *)
Lemma json_dump_file_effect (out : string) (obj : pyobj) (indent : Z) (w : world) :
  let text := fst (json.iterencode indent obj 0) in
  let err := snd (json.iterencode indent obj 0) in
  match json_dump_file out obj indent w with
  | (Return _, w') => err = None /\ wrote out text w w'
  | (Raise e, w') => root w' = root w \/ (err = Some e /\ wrote out text w w')
  end.
Proof.
  cbv zeta. unfold json_dump_file, bind. rewrite open_write_spec.
  destruct (os.resolve w out) as [comps|] eqn:R; [|left; reflexivity].
  assert (Hopen : forall r, fs.update (root w) comps (fun _ => Some (fs.File EmptyString)) = Some r ->
            ~ dir_at (root w) comps ->
            match (let '(text, err) := json.iterencode indent obj 0 in
                   fun w0 => match os.append_file out text w0 with
                             | (Return _, w') =>
                                 match err with Some e => raise e | None => ret tt end w'
                             | (Raise e, w') => (Raise e, w')
                             end) (set_root r (logged (SysOpenWrite out) w)) with
            | (Return _, w') =>
                snd (json.iterencode indent obj 0) = None
                /\ wrote out (fst (json.iterencode indent obj 0)) w w'
            | (Raise e, w') =>
                root w' = root w
                \/ (snd (json.iterencode indent obj 0) = Some e
                    /\ wrote out (fst (json.iterencode indent obj 0)) w w')
            end).
  { intros r U Hnd.
    destruct (json.iterencode indent obj 0) as [text err]. cbn [fst snd].
    rewrite append_file_spec.
    change (os.resolve (set_root r (logged (SysOpenWrite out) w)) out) with (os.resolve w out).
    rewrite R. cbn [root set_root].
    destruct (update_target _ _ _ _ U) as (m0 & Hm0 & L0). injection Hm0 as <-.
    assert (Hc : comps <> []) by (intros ->; discriminate).
    destruct (update_exists comps r (fs.File EmptyString) (fs.File (EmptyString ++ text))
                (fun old => match old with
                            | Some (fs.File data) => Some (fs.File (data ++ text))
                            | _ => None
                            end) Hc L0 eq_refl) as [r2 U2].
    rewrite U2.
    assert (W : wrote out text w (set_root r2 (set_root r (logged (SysOpenWrite out) w)))).
    { exists comps. split; [exact R|]. cbn [root set_root]. split.
      - destruct (update_target _ _ _ _ U2) as (m2 & Hm2 & L2).
        rewrite L0 in Hm2. cbn in Hm2. injection Hm2 as <-. exact L2.
      - intros q d Hq.
        pose proof (update_other_files _ _ _ _ U2) as A2.
        specialize (A2 ltac:(intros [es He]; congruence)).
        specialize (A2 ltac:(intros [[dd|ee]|] m' Hm'; try discriminate;
                             injection Hm' as <-; reflexivity)).
        rewrite (A2 q d Hq).
        apply (update_other_files _ _ _ _ U); [exact Hnd| |exact Hq].
        intros old m' Hm'. injection Hm' as <-. reflexivity. }
    destruct err as [e|]; cbn [raise ret]; auto. }
  destruct (fs.lookup (root w) comps) as [[d|es]| |] eqn:L.
  - destruct (fs.update (root w) comps _) as [r|] eqn:U; [|left; reflexivity].
    apply (Hopen r eq_refl). intros [es He]. congruence.
  - left. reflexivity.
  - destruct (fs.update (root w) comps _) as [r|] eqn:U; [|left; reflexivity].
    apply (Hopen r eq_refl). intros [es He]. congruence.
  - left. reflexivity.
Qed.

(** ** One conversion *)

Section ConvertFile.
Variable load : string -> result pyobj.

Lemma convert_single_file_eq (p out : string) (indent : Z) (w : world) :
  pystr.truthy out = true ->
  convert_single_plist_to_json load p (Some out) indent false w
  = match load_plist load p w with
    | (Raise e, w1) => (read_failure p e, w1)
    | (Return obj, w1) =>
        match os.makedirs (posixpath.dirname out) w1 with
        | (Raise e, w2) => (json_failure p e, w2)
        | (Return _, w2) =>
            match json_dump_file out obj indent w2 with
            | (Raise e, w3) => (json_failure p e, w3)
            | (Return _, w3) => (Return (p, true, None), w3)
            end
        end
    end.
Proof.
  intros Ht. unfold convert_single_plist_to_json, bind, py.try_except, ensure_directory.
  cbn [py.opt_truthy py.opt_str orb negb]. rewrite Ht. cbn [negb].
  destruct (load_plist load p w) as [[obj|e] w1].
  - cbn [ret]. destruct (os.makedirs (posixpath.dirname out) w1) as [[u|e] w2].
    + destruct (json_dump_file out obj indent w2) as [[u'|e] w3].
      * reflexivity.
      * unfold json_failure. destruct (is_Exception e); reflexivity.
    + unfold json_failure. destruct (is_Exception e); reflexivity.
  - unfold read_failure. destruct e; reflexivity.
Qed.

Lemma convert_single_stream_eq (p : string) (out : option string) (indent : Z) (w : world) :
  convert_single_plist_to_json load p out indent true w
  = match load_plist load p w with
    | (Raise e, w1) => (read_failure p e, w1)
    | (Return obj, w1) =>
        match json_dump_stdout obj indent w1 with
        | (Raise e, w2) => (json_failure p e, w2)
        | (Return _, w2) =>
            (Return (p, true, None),
             mkWorld (root w2) (cwd w2) (stdout w2 ++ pystr.LF) (stderr w2) (log w2))
        end
    end.
Proof.
  unfold convert_single_plist_to_json, bind, py.try_except.
  cbn [orb]. destruct (load_plist load p w) as [[obj|e] w1].
  - cbn [ret]. destruct (json_dump_stdout obj indent w1) as [[u|e] w2].
    + reflexivity.
    + unfold json_failure. destruct (is_Exception e); reflexivity.
  - unfold read_failure. destruct e; reflexivity.
Qed.

Lemma read_failure_flag (p : string) (e : exn) (q : string) (err : option string) :
  read_failure p e <> Return (q, true, err).
Proof. unfold read_failure. destruct e; simpl; congruence. Qed.

Lemma json_failure_flag (p : string) (e : exn) (q : string) (err : option string) :
  json_failure p e <> Return (q, true, err).
Proof. unfold json_failure. destruct (is_Exception e); congruence. Qed.

Lemma makedirs_effect (d : string) (w : world) :
  files_same w (snd (os.makedirs d w))
  /\ cwd (snd (os.makedirs d w)) = cwd w
  /\ (forall e, fst (os.makedirs d w) = Raise e -> root (snd (os.makedirs d w)) = root w).
Proof.
  rewrite makedirs_spec. destruct (os.resolve w d) as [comps|].
  - destruct (fs.mkdir_p (root w) comps) as [r|] eqn:E; cbn [fst snd].
    + split; [|split; [reflexivity|discriminate]].
      intros q x. cbn [root set_root]. apply (mkdir_p_files _ _ _ E).
    + split; [apply files_same_root; reflexivity|split; reflexivity].
  - cbn [fst snd]. split; [apply files_same_root; reflexivity|split; reflexivity].
Qed.

Lemma wrote_from (out text : string) (w0 w w' : world) :
  cwd w = cwd w0 -> files_same w0 w -> wrote out text w w' -> wrote out text w0 w'.
Proof.
  intros Hc Hf (comps & R & F & O). exists comps. split; [|split].
  - unfold os.resolve in *. rewrite <- Hc. exact R.
  - exact F.
  - intros q d Hq. rewrite (O q d Hq). apply Hf.
Qed.

Lemma files_same_trans (w1 w2 w3 : world) :
  files_same w1 w2 -> files_same w2 w3 -> files_same w1 w3.
Proof. intros H1 H2 q d. rewrite (H2 q d). apply H1. Qed.

(** The effect of one conversion to a file on the files of the system. *)
Lemma convert_single_file_effect (p out : string) (indent : Z) (w : world) :
  pystr.truthy out = true ->
  let r := fst (convert_single_plist_to_json load p (Some out) indent false w) in
  let w' := snd (convert_single_plist_to_json load p (Some out) indent false w) in
  (forall err, r = Return (p, true, err) ->
     exists obj, fst (load_plist load p w) = Return obj
       /\ snd (json.iterencode indent obj 0) = None
       /\ wrote out (fst (json.iterencode indent obj 0)) w w')
  /\ (forall e, fst (load_plist load p w) = Raise e -> root w' = root w)
  /\ (forall err, r = Return (p, false, err) ->
        files_same w w'
        \/ exists obj e, fst (load_plist load p w) = Return obj
             /\ snd (json.iterencode indent obj 0) = Some e
             /\ wrote out (fst (json.iterencode indent obj 0)) w w').
Proof.
  intros Ht. cbv zeta. rewrite (convert_single_file_eq _ _ _ _ Ht).
  rewrite load_plist_spec.
  set (w1 := logged (SysOpenRead p) w).
  assert (H1 : files_same w w1) by (apply files_same_root; reflexivity).
  set (lr := match os.stat w p with
             | fs.Found (fs.File data) => load data
             | fs.Found (fs.Dir _) => Raise (os.eisdir p)
             | fs.ENOENT => Raise (os.enoent p)
             | fs.ENOTDIR => Raise (os.enotdir p)
             end).
  destruct lr as [obj|e0]; cbn [fst snd].
  2:{ split; [|split].
      - intros err H. exfalso. exact (read_failure_flag _ _ _ _ H).
      - reflexivity.
      - intros err H. left. exact H1. }
  destruct (makedirs_effect (posixpath.dirname out) w1) as (M1 & M2 & M3).
  destruct (os.makedirs (posixpath.dirname out) w1) as [[u|e] w2]; cbn [fst snd] in *.
  2:{ split; [|split].
      - intros err H. exfalso. exact (json_failure_flag _ _ _ _ H).
      - discriminate.
      - intros err H. left. exact (files_same_trans _ _ _ H1 M1). }
  pose proof (json_dump_file_effect out obj indent w2) as J. cbv zeta in J.
  destruct (json_dump_file out obj indent w2) as [[u'|e] w3]; cbn [fst snd].
  - destruct J as [Jn Jw]. split; [|split].
    + intros err _. exists obj. split; [reflexivity|]. split; [exact Jn|].
      apply (wrote_from _ _ w w2); [exact M2| |exact Jw].
      exact (files_same_trans _ _ _ H1 M1).
    + discriminate.
    + discriminate.
  - split; [|split].
    + intros err H. exfalso. exact (json_failure_flag _ _ _ _ H).
    + discriminate.
    + intros err H. destruct J as [Jr|[Je Jw]].
      * left. eapply files_same_trans; [exact H1|].
        eapply files_same_trans; [exact M1|]. apply files_same_root. exact Jr.
      * right. exists obj, e. split; [reflexivity|]. split; [exact Je|].
        apply (wrote_from _ _ w w2); [exact M2| |exact Jw].
        exact (files_same_trans _ _ _ H1 M1).
Qed.

End ConvertFile.

(** ** Output paths *)

Lemma output_path_of_pure (p base : string) (od : option string) (w : world) :
  snd (output_path_of p base od w) = w.
Proof.
  unfold output_path_of.
  destruct (pystr.truthy base); [|reflexivity].
  cbv beta iota delta [bind get_cwd lift ret fst snd].
  destruct (posixpath.relpath (cwd w) p base); reflexivity.
Qed.

Lemma output_path_of_cwd (p base : string) (od : option string) (w w' : world) :
  cwd w' = cwd w ->
  fst (output_path_of p base od w') = fst (output_path_of p base od w).
Proof.
  intros H. unfold output_path_of.
  destruct (pystr.truthy base); [|reflexivity].
  cbv beta iota delta [bind get_cwd lift ret fst snd]. rewrite H.
  destruct (posixpath.relpath (cwd w) p base); reflexivity.
Qed.

Lemma compute_output_path_spec (p base : string) (od : option string) (w : world) :
  compute_output_path p base od w
  = match fst (output_path_of p base od w) with
    | Raise e => (Raise e, w)
    | Return out =>
        match os.makedirs (posixpath.dirname out) w with
        | (Return _, w') => (Return out, w')
        | (Raise e, w') => (Raise e, w')
        end
    end.
Proof.
  unfold compute_output_path, ensure_directory. unfold bind at 1.
  pose proof (output_path_of_pure p base od w) as Hp.
  destruct (output_path_of p base od w) as [[out|e] w0]; cbn [fst snd] in *; subst w0;
    [|reflexivity].
  unfold bind. destruct (os.makedirs (posixpath.dirname out) w) as [[u|e] w']; reflexivity.
Qed.

Lemma makedirs_creates (d : string) (w w' : world) (u : unit) :
  os.makedirs d w = (Return u, w') ->
  (exists es, os.stat w' d = fs.Found (fs.Dir es))
  /\ log w' = (log w ++ [SysMakedirs d])%list.
Proof.
  rewrite makedirs_spec. destruct (os.resolve w d) as [comps|] eqn:R; [|discriminate].
  destruct (fs.mkdir_p (root w) comps) as [r|] eqn:E; [|discriminate].
  intros [= _ <-]. split; [|reflexivity].
  unfold os.stat.
  change (os.resolve (set_root r (logged (SysMakedirs d) w)) d) with (os.resolve w d).
  rewrite R. cbn [root set_root]. apply (mkdir_p_target _ _ _ E).
Qed.

Lemma stat_dir_evolves (w w' : world) (p : string) :
  evolves w w' ->
  (exists es, os.stat w p = fs.Found (fs.Dir es)) ->
  exists es, os.stat w' p = fs.Found (fs.Dir es).
Proof.
  intros (Hc & Hd & _) H. unfold os.stat, os.resolve in *. rewrite Hc.
  destruct (pystr.truthy p); [|destruct H; discriminate].
  apply Hd. exact H.
Qed.

(** [compute_output_path] leaves the parent directory of its result in
    place, and has made one system call: [makedirs] on that directory. *)
Lemma compute_output_path_parent (p base : string) (od : option string)
    (w w' : world) (out : string) :
  compute_output_path p base od w = (Return out, w') ->
  fst (output_path_of p base od w) = Return out
  /\ (exists es, os.stat w' (posixpath.dirname out) = fs.Found (fs.Dir es))
  /\ log w' = (log w ++ [SysMakedirs (posixpath.dirname out)])%list.
Proof.
  rewrite compute_output_path_spec.
  destruct (fst (output_path_of p base od w)) as [o|e]; [|discriminate].
  destruct (os.makedirs (posixpath.dirname o) w) as [[u|e] w1] eqn:M; [|discriminate].
  intros [= -> ->]. split; [reflexivity|]. apply (makedirs_creates _ _ _ _ M).
Qed.

Section LoopFacts.
Variable load : string -> result pyobj.

Lemma convert_single_split (p : string) (out : option string) (indent : Z)
    (stream : bool) (w : world) :
  exists stage2 : pyobj -> M outcome,
    (forall obj, forward (stage2 obj))
    /\ convert_single_plist_to_json load p out indent stream w
       = match load_plist load p w with
         | (Raise e, w1) => (read_failure p e, w1)
         | (Return obj, w1) => stage2 obj w1
         end.
Proof.
  eexists (fun obj => py.try_except _ _). split.
  2:{ unfold convert_single_plist_to_json. unfold bind at 1. unfold py.try_except at 1.
      unfold bind at 1.
      destruct (load_plist load p w) as [[obj|e] w1].
      - cbn [ret]. reflexivity.
      - unfold read_failure. destruct e; reflexivity. }
  intros obj. apply forward_try.
  - unfold ensure_directory. forward_tac.
  - intros e k H. destruct (is_Exception e); [|discriminate].
    injection H as <-. auto with forward.
Qed.

(** Every conversion starts by opening its input. *)
Lemma convert_single_log (p : string) (out : option string) (indent : Z)
    (stream : bool) (w : world) :
  exists evs,
    log (snd (convert_single_plist_to_json load p out indent stream w))
    = (log w ++ SysOpenRead p :: evs)%list.
Proof.
  destruct (convert_single_split p out indent stream w) as (stage2 & Hf & ->).
  rewrite load_plist_spec.
  match goal with |- context [match ?x with Return _ => _ | Raise _ => _ end] =>
    destruct x as [obj|e] end.
  - destruct (Hf obj (logged (SysOpenRead p) w)) as (_ & _ & [evs He] & _).
    exists evs. rewrite He. cbn [log logged]. rewrite <- app_assoc. reflexivity.
  - exists []. reflexivity.
Qed.

End LoopFacts.
Section BatchFacts.
Variable load : string -> result pyobj.
Variables (base : string) (od : option string) (indent : Z).

Lemma main_loop_cons (f : string) (rest : list string) (acc : list outcome) (w : world) :
  main_loop load (f :: rest) base od indent acc w
  = match compute_output_path f base od w with
    | (Raise e, w1) => (Raise e, w1)
    | (Return out, w1) =>
        match convert_single_plist_to_json load f (Some out) indent false w1 with
        | (Raise e, w2) => (Raise e, w2)
        | (Return r, w2) =>
            main_loop load rest base od indent (acc ++ [(f, snd (fst r), snd r)]) w2
        end
    end.
Proof.
  cbn [main_loop]. unfold bind.
  destruct (compute_output_path f base od w) as [[out|e] w1]; [|reflexivity].
  destruct (convert_single_plist_to_json load f (Some out) indent false w1)
    as [[r|e] w2]; reflexivity.
Qed.

(** The loop either gives every candidate an outcome, in order, having
    opened each of them, or it was stopped at one candidate by an exception
    of [compute_output_path] or by one that is no [Exception]. *)
Lemma main_loop_run (files : list string) (acc : list outcome) (w : world) :
  match main_loop load files base od indent acc w with
  | (Return results, w') =>
      exists entries,
        results = (acc ++ entries)%list
        /\ map (fun r : outcome => fst (fst r)) entries = files
        /\ Forall (fun f => In (SysOpenRead f) (log w')) files
  | (Raise e, w') =>
      exists done f rest acc1 w1,
        files = (done ++ f :: rest)%list
        /\ main_loop load done base od indent acc w = (Return acc1, w1)
        /\ (fst (compute_output_path f base od w1) = Raise e
            \/ is_Exception e = false)
  end.
Proof.
  revert acc w. induction files as [|f rest IH]; intros acc w.
  - cbn [main_loop ret]. exists []. rewrite app_nil_r. repeat split. constructor.
  - rewrite main_loop_cons.
    destruct (compute_output_path f base od w) as [[out|e] w1] eqn:C.
    + pose proof (convert_single_total load f (Some out) indent false w1) as T.
      destruct (convert_single_log load f (Some out) indent false w1) as [evs L].
      destruct (convert_single_plist_to_json load f (Some out) indent false w1)
        as [[r|e] w2] eqn:S; cbn [fst snd] in *.
      * specialize (IH (acc ++ [(f, snd (fst r), snd r)])%list w2).
        pose proof (forward_main_loop load rest base od indent
                      (acc ++ [(f, snd (fst r), snd r)])%list w2) as F.
        destruct (main_loop load rest base od indent
                    (acc ++ [(f, snd (fst r), snd r)])%list w2) as [[results|e] w3].
        -- destruct IH as (entries & -> & Hm & Ha).
           exists ((f, snd (fst r), snd r) :: entries). split; [|split].
           ++ rewrite <- app_assoc. reflexivity.
           ++ cbn [map fst]. rewrite Hm. reflexivity.
           ++ constructor; [|exact Ha].
              destruct F as (_ & _ & [evs' L'] & _). cbn [snd] in L'.
              rewrite L', L. apply in_or_app. left. apply in_or_app. right. left. reflexivity.
        -- destruct IH as (done & g & rest' & acc1 & w4 & -> & Hl & He).
           exists (f :: done), g, rest', acc1, w4. split; [reflexivity|]. split; [|exact He].
           change ((f :: done)%list) with (f :: done). rewrite main_loop_cons, C, S. exact Hl.
      * exists [], f, rest, acc, w. split; [reflexivity|]. split; [reflexivity|].
        right. exact T.
    + exists [], f, rest, acc, w. split; [reflexivity|]. split; [reflexivity|].
      left. rewrite C. reflexivity.
Qed.

(** After the loop the parent directory of every candidate's output path
    exists, whatever the outcome of its conversion. *)
Lemma main_loop_dirs (files : list string) (acc results : list outcome) (w w' : world) :
  main_loop load files base od indent acc w = (Return results, w') ->
  forall f out, In f files ->
    fst (output_path_of f base od w) = Return out ->
    exists es, os.stat w' (posixpath.dirname out) = fs.Found (fs.Dir es).
Proof.
  revert acc w. induction files as [|g rest IH]; intros acc w H f out Hin Hout;
    [destruct Hin|].
  rewrite main_loop_cons in H.
  destruct (compute_output_path g base od w) as [[o|e] w1] eqn:C; [|discriminate].
  pose proof (forward_convert_single load g (Some o) indent false w1) as F1.
  pose proof (forward_compute_output_path g base od w) as F0. rewrite C in F0. cbn [snd] in F0.
  destruct (convert_single_plist_to_json load g (Some o) indent false w1) as [[r|e] w2];
    [|discriminate]. cbn [snd] in F1.
  destruct Hin as [<-|Hin].
  - destruct (compute_output_path_parent _ _ _ _ _ _ C) as (Ho & Hd & _).
    rewrite Hout in Ho. injection Ho as <-.
    pose proof (forward_main_loop load rest base od indent
                  (acc ++ [(g, snd (fst r), snd r)])%list w2) as F2.
    rewrite H in F2. cbn [snd] in F2.
    apply (stat_dir_evolves w2 w' _ F2). apply (stat_dir_evolves w1 w2 _ F1). exact Hd.
  - apply (IH _ _ H f out Hin).
    rewrite <- Hout. apply output_path_of_cwd.
    destruct F0 as (C0 & _). destruct F1 as (C1 & _). congruence.
Qed.

End BatchFacts.

(** ** Candidates *)

Lemma rev_acc_app (s acc : string) : pystr.rev_acc s acc = pystr.rev s ++ acc.
Proof.
  unfold pystr.rev. revert acc. induction s as [|c r IH]; intros acc; simpl; [reflexivity|].
  rewrite (IH (String c acc)), (IH (String c EmptyString)), append_assoc. reflexivity.
Qed.

Lemma rev_app (a b : string) : pystr.rev (a ++ b) = pystr.rev b ++ pystr.rev a.
Proof.
  induction a as [|c r IH]; simpl.
  - rewrite append_nil_r. reflexivity.
  - change (pystr.rev (String c (r ++ b))) with (pystr.rev_acc (r ++ b) (String c EmptyString)).
    change (pystr.rev (String c r)) with (pystr.rev_acc r (String c EmptyString)).
    rewrite (rev_acc_app (r ++ b)), (rev_acc_app r), IH, append_assoc. reflexivity.
Qed.

Lemma prefix_app (p a c : string) : String.prefix p a = true -> String.prefix p (a ++ c) = true.
Proof.
  revert a. induction p as [|x p IH]; intros a H.
  - destruct (a ++ c); reflexivity.
  - destruct a as [|y a]; [discriminate|]. simpl in *.
    destruct (ascii_dec x y); [|discriminate]. apply IH. exact H.
Qed.

Lemma endswith_app (x b p : string) :
  pystr.endswith b p = true -> pystr.endswith (x ++ b) p = true.
Proof. unfold pystr.endswith. rewrite rev_app. apply prefix_app. Qed.

Lemma lower_app (a b : string) : pystr.lower (a ++ b) = pystr.lower a ++ pystr.lower b.
Proof. induction a as [|c r IH]; simpl; [reflexivity|]. rewrite IH. reflexivity. Qed.

Lemma join_suffix (a b : string) : exists x, posixpath.join a b = x ++ b.
Proof.
  unfold posixpath.join. destruct (pystr.startswith b "/").
  - exists EmptyString. reflexivity.
  - destruct (negb (pystr.truthy a) || pystr.endswith a "/")%bool.
    + exists a. reflexivity.
    + exists (a ++ "/"). rewrite append_assoc. reflexivity.
Qed.

(** A path built by joining a directory and a plist name still ends in
    the plist extension. *)
Lemma is_plist_name_join (a b : string) :
  is_plist_name b = true -> is_plist_name (posixpath.join a b) = true.
Proof.
  unfold is_plist_name. intros H. destruct (join_suffix a b) as [x ->].
  rewrite lower_app. apply endswith_app. exact H.
Qed.

Lemma list_plist_files_names (dir : string) (rec : bool) (w : world) :
  match fst (list_plist_files dir rec w) with
  | Return l => Forall (fun f => is_plist_name f = true) l
  | Raise _ => True
  end.
Proof.
  unfold list_plist_files. destruct rec.
  - unfold bind, os.walk, ret. cbn [fst].
    apply Forall_forall. intros f Hf. apply in_flat_map in Hf.
    destruct Hf as (t & _ & Hf). apply in_map_iff in Hf. destruct Hf as (name & <- & Hn).
    apply filter_In in Hn. apply is_plist_name_join. apply Hn.
  - unfold bind. destruct (os.scandir dir w) as [[entries|e] w1]; cbn [fst ret]; [|exact I].
    apply Forall_forall. intros f Hf. apply in_map_iff in Hf. destruct Hf as (e & <- & He).
    apply filter_In in He. destruct He as [_ He]. apply andb_true_iff in He.
    apply is_plist_name_join. apply He.
Qed.

Lemma iter_plist_files_eq (dir : string) (rec : bool) (w : world) :
  iter_plist_files dir rec w
  = match list_plist_files dir rec w with
    | (Return l, w') => (Return (py.sorted l), w')
    | (Raise e, w') => (Raise e, w')
    end.
Proof. reflexivity. Qed.

(** Listing the candidates only lists directories: the tree and the
    standard streams are as before. *)
Lemma list_plist_files_effect (dir : string) (rec : bool) (w : world) :
  let w' := snd (list_plist_files dir rec w) in
  root w' = root w /\ cwd w' = cwd w /\ stdout w' = stdout w /\ stderr w' = stderr w
  /\ exists evs, log w' = (log w ++ evs)%list /\ forallb is_listing evs = true.
Proof.
  cbv zeta. unfold list_plist_files. destruct rec.
  - unfold bind, os.walk, ret. cbn [fst snd root cwd stdout stderr log].
    repeat split. eexists. split; [reflexivity|].
    induction (match os.stat w dir with fs.Found n => fs.walk dir n | _ => [] end);
      [reflexivity|exact IHl].
  - unfold bind, os.scandir, trace. cbn.
    destruct (os.stat _ dir) as [[d|es]| |]; cbn; repeat split;
      exists [SysScandir dir]; split; reflexivity.
Qed.

Lemma list_plist_files_isdir (dir : string) (rec : bool) (w : world) :
  fst (os.isdir dir w) = Return true ->
  exists l, fst (list_plist_files dir rec w) = Return l.
Proof.
  unfold os.isdir. cbn [fst]. intros H. unfold list_plist_files. destruct rec.
  - eexists. reflexivity.
  - unfold bind, os.scandir, trace. cbn.
    change (os.stat (mkWorld (root w) (cwd w) (stdout w) (stderr w)
                       (log w ++ [SysScandir dir])) dir) with (os.stat w dir).
    destruct (os.stat w dir) as [[d|es]| |]; try discriminate. eexists. reflexivity.
Qed.

(** ** The command *)

Section MainFacts.
Variable load : string -> result pyobj.

Lemma main_isdir (a : args) (w : world) :
  fst (os.isdir (plist_file a) w) = Return true ->
  main load a w = main_directory load a w.
Proof.
  unfold main, bind, os.exists_, os.isdir. cbn [fst].
  destruct (os.stat w (plist_file a)) as [[d|es]| |] eqn:E; try discriminate.
  intros _. cbn [negb]. cbv beta iota. rewrite E. reflexivity.
Qed.

Lemma bind_not {A B} (m : M A) (k : A -> M B) (v : B) (w : world) :
  (forall a w', fst (k a w') <> Return v) -> fst (bind m k w) <> Return v.
Proof.
  intros H. unfold bind. destruct (m w) as [[a|e] w']; [apply H|discriminate].
Qed.

Lemma eprint_run (s : string) (w : world) :
  eprint s w = (Return tt, mkWorld (root w) (cwd w) (stdout w) (stderr w ++ s ++ pystr.LF) (log w)).
Proof. reflexivity. Qed.

(** With a directory as input, [--output] alone stops the run after the
    listing; nothing is read, created or written. *)
Lemma main_directory_output_only (a : args) (w : world) :
  fst (os.isdir (plist_file a) w) = Return true ->
  py.opt_truthy (output a) = true ->
  py.opt_truthy (output_dir a) = false ->
  (exists files,
     fst (iter_plist_files (plist_file a) (recursive a) w) = Return files
     /\ fst (main load a w) = Return (match files with [] => 1 | _ => 2 end))
  /\ root (snd (main load a w)) = root w
  /\ stdout (snd (main load a w)) = stdout w
  /\ exists evs, log (snd (main load a w)) = (log w ++ evs)%list
                 /\ forallb is_listing evs = true.
Proof.
  intros Hd Ho Hod.
  destruct (list_plist_files_isdir _ (recursive a) w Hd) as [l Hl].
  destruct (list_plist_files_effect (plist_file a) (recursive a) w)
    as (Hr & Hc & Hso & Hse & evs & Hlog & Hev).
  assert (E : exists msg,
             iter_plist_files (plist_file a) (recursive a) w
             = (Return (py.sorted l), snd (list_plist_files (plist_file a) (recursive a) w))
             /\ main load a w
                = (Return (match py.sorted l with [] => 1 | _ => 2 end),
                   let w1 := snd (list_plist_files (plist_file a) (recursive a) w) in
                   mkWorld (root w1) (cwd w1) (stdout w1) (stderr w1 ++ msg) (log w1))).
  { rewrite (main_isdir a w Hd). unfold main_directory. unfold bind at 1.
    rewrite iter_plist_files_eq.
    destruct (list_plist_files (plist_file a) (recursive a) w) as [[l'|e] w1];
      cbn [fst snd] in *; [|discriminate].
    injection Hl as <-. rewrite Ho, Hod. cbn [andb negb].
    destruct (py.sorted l') as [|f rest]; unfold bind; rewrite eprint_run; cbn [ret];
      eexists; split; reflexivity. }
  destruct E as (msg & Ei & Em). rewrite Em, Ei. cbn [fst snd root stdout log].
  split; [eexists; split; reflexivity|].
  split; [assumption|]. split; [assumption|]. exists evs. split; assumption.
Qed.

(** With a directory as input and [--output-dir] given, [--output] plays no
    part, and the run never ends as a usage error. *)
Lemma main_directory_output_ignored (a : args) (o1 o2 : option string) (w : world) :
  fst (os.isdir (plist_file a) w) = Return true ->
  py.opt_truthy (output_dir a) = true ->
  main load (with_output a o1) w = main load (with_output a o2) w
  /\ fst (main load (with_output a o1) w) <> Return 2.
Proof.
  intros Hd Hod.
  rewrite (main_isdir (with_output a o1) w Hd), (main_isdir (with_output a o2) w Hd).
  unfold main_directory.
  cbn [with_output plist_file output output_dir indent recursive no_progress].
  rewrite Hod. cbn [negb]. rewrite !andb_false_r.
  split; [reflexivity|].
  apply bind_not. intros files w1. destruct files as [|f rest].
  - apply bind_not. intros u w2. discriminate.
  - repeat (apply bind_not; intros ? ?).
    match goal with |- fst (match ?x with [] => _ | _ :: _ => _ end _) <> _ =>
      destruct x end.
    + discriminate.
    + repeat (apply bind_not; intros ? ?). discriminate.
Qed.

End MainFacts.

(** * The claims *)

(** C1 (the code departs from the claim).  With an output root the nested
    file [foo/bar/baz.plist] of the base root [foo] maps to
    [out/bar/baz.json], as claimed.  With no output root the code joins the
    directory of the source file with the path relative to the base root, so
    the sub-directory appears twice: the result is [foo/bar/bar/baz.json],
    not [foo/bar/baz.json] beside the source, and a recursive run writes the
    file there. *)
Theorem compute_output_path_nested_file :
  fst (compute_output_path "foo/bar/baz.plist" "foo" (Some "out") demo.world0)
  = Return "out/bar/baz.json"
  /\ fst (compute_output_path "foo/bar/baz.plist" "foo" None demo.world0)
     = Return "foo/bar/bar/baz.json"
  /\ fst (compute_output_path "foo/baz0.plist" "foo" None demo.world0)
     = Return "foo/baz0.json"
  /\ (let w' := snd (main demo.load (demo.args_dir "foo" None None true) demo.world0) in
      os.stat w' "foo/bar/baz.json" = fs.ENOENT
      /\ exists text, os.stat w' "foo/bar/bar/baz.json" = fs.Found (fs.File text)).
Proof.
  split; [vm_compute; reflexivity|]. split; [vm_compute; reflexivity|].
  split; [vm_compute; reflexivity|]. cbv zeta. split; [vm_compute; reflexivity|].
  eexists. vm_compute. reflexivity.
Qed.

(** C2, as claimed, fails: with a directory as input, [--output] given and
    [--output-dir] given too, the run is no usage error; both candidates are
    read and one is converted.  And where the run is rejected, the directory
    has been traversed first. *)
Lemma usage_error_not_raised_with_output_dir :
  let a := demo.args_dir "pair" (Some "x.json") (Some "out") false in
  let r := main demo.load a demo.world0 in
  fst (os.isdir (plist_file a) demo.world0) = Return true
  /\ py.opt_truthy (output a) = true
  /\ fst r = Return 3
  /\ reads (log (snd r)) = ["pair/bad.plist"; "pair/good.plist"]
  /\ (exists text, os.stat (snd r) "out/good.json" = fs.Found (fs.File text))
  /\ log (snd (main demo.load (demo.args_dir "deep" (Some "x.json") None true)
                 demo.world0))
     = [SysScandir "deep"; SysScandir "deep/sub"].
Proof.
  cbv zeta. repeat (split; [vm_compute; reflexivity|]).
  split; [eexists; vm_compute; reflexivity|]. vm_compute. reflexivity.
Qed.

(** C2, amended: with a directory as input and [--output] given without
    [--output-dir], no conversion is performed.  The candidates are listed
    first; the run then ends with status 2 (usage error) when there is a
    candidate and with status 1 when there is none.  No file is read, the
    directory tree and the standard output are untouched, and the only
    system calls are directory listings. *)
Theorem usage_error_after_listing (load : string -> result pyobj) (a : args) (w : world) :
  fst (os.isdir (plist_file a) w) = Return true ->
  py.opt_truthy (output a) = true ->
  py.opt_truthy (output_dir a) = false ->
  (exists files,
     fst (iter_plist_files (plist_file a) (recursive a) w) = Return files
     /\ fst (main load a w) = Return (match files with [] => 1 | _ => 2 end))
  /\ root (snd (main load a w)) = root w
  /\ stdout (snd (main load a w)) = stdout w
  /\ exists evs, log (snd (main load a w)) = (log w ++ evs)%list
                 /\ forallb is_listing evs = true.
Proof. apply main_directory_output_only. Qed.

Lemma usage_error_after_listing_witness :
  fst (os.isdir "deep" demo.world0) = Return true
  /\ exists evs,
       log (snd (main demo.load (demo.args_dir "deep" (Some "x.json") None true)
                   demo.world0))
       = (log demo.world0 ++ evs)%list
       /\ forallb is_listing evs = true.
Proof.
  split; [reflexivity|].
  apply (usage_error_after_listing demo.load
           (demo.args_dir "deep" (Some "x.json") None true) demo.world0);
    reflexivity.
Defined.

(** C3, as claimed, fails: a plist that holds a [plistlib.UID] decodes, but
    cannot be written as JSON; the conversion fails and the output file,
    which held [previous content], is left with the beginning of the JSON
    text. *)
Lemma partial_output_left_on_serialization_failure :
  let r := convert_single_plist_to_json demo.load "/w/uid.plist" (Some "/w/old.json")
             2 false demo.world0 in
  fst r = Return ("/w/uid.plist", false,
                  Some (MSG_JSON
                        ++ "Type non sérialisable en JSON : <class 'plistlib.UID'>"))
  /\ os.stat demo.world0 "/w/old.json" = fs.Found (fs.File "previous content")
  /\ os.stat (snd r) "/w/old.json"
     = fs.Found (fs.File ("{" ++ pystr.LF ++ "  " ++ pystr.DQ ++ "a" ++ pystr.DQ ++ ": 1,"
                          ++ pystr.LF ++ "  " ++ pystr.DQ ++ "b" ++ pystr.DQ ++ ": ")).
Proof. cbv zeta. repeat split; vm_compute; reflexivity. Qed.

(** C3, amended: for a conversion with a file sink, a success writes
    exactly one file, the output file, which holds the complete JSON text,
    and leaves every other file as it was; a failure while reading or
    decoding the input leaves the whole tree as it was; any other failure
    touches no file but the output file, which is either as before or holds
    the text the encoder had written when it failed. *)
Theorem convert_single_file_artifact (load : string -> result pyobj)
    (p out : string) (indent : Z) (w : world) :
  pystr.truthy out = true ->
  let r := fst (convert_single_plist_to_json load p (Some out) indent false w) in
  let w' := snd (convert_single_plist_to_json load p (Some out) indent false w) in
  (forall err, r = Return (p, true, err) ->
     exists obj, fst (load_plist load p w) = Return obj
       /\ snd (json.iterencode indent obj 0) = None
       /\ wrote out (fst (json.iterencode indent obj 0)) w w')
  /\ (forall e, fst (load_plist load p w) = Raise e -> root w' = root w)
  /\ (forall err, r = Return (p, false, err) ->
        files_same w w'
        \/ exists obj e, fst (load_plist load p w) = Return obj
             /\ snd (json.iterencode indent obj 0) = Some e
             /\ wrote out (fst (json.iterencode indent obj 0)) w w').
Proof. apply convert_single_file_effect. Qed.

Lemma convert_single_file_artifact_witness :
  pystr.truthy "/w/new/good.json" = true
  /\ forall e, fst (load_plist demo.load "/w/pair/bad.plist" demo.world0) = Raise e ->
       root (snd (convert_single_plist_to_json demo.load "/w/pair/bad.plist"
                    (Some "/w/new/good.json") 2 false demo.world0))
       = root demo.world0.
Proof.
  split; [reflexivity|].
  apply (convert_single_file_artifact demo.load "/w/pair/bad.plist" "/w/new/good.json" 2
           demo.world0 eq_refl).
Defined.

(** C4, as claimed, fails: the date [plistlib] builds for
    2001-01-01T00:00:00Z is a naive [datetime]; its JSON form is the string
    [2001-01-01T00:00:00], with no timezone offset. *)
Lemma naive_date_has_no_offset :
  let d := datetime.naive 2001 1 1 0 0 0 0 in
  datetime.valid d = true
  /\ convert_to_json_serializable (PyDatetime d) = Return (PyStr "2001-01-01T00:00:00")
  /\ datetime.has_utc_offset "2001-01-01T00:00:00" = false.
Proof. cbv zeta. repeat split; vm_compute; reflexivity. Qed.

(** C4, amended: for every Date value the JSON encoder emits a JSON string
    (never a number) that holds the ISO-8601 form of the [datetime] object,
    [YYYY-MM-DDTHH:MM:SS] with [.ffffff] when the microseconds are not zero;
    the string carries a UTC offset exactly when the object is
    timezone-aware, which the naive values of [plistlib.load] are not; and
    the string parses back to the same date and time, so to the same
    instant. *)
Theorem date_encoding_roundtrip (d : datetime.t) :
  datetime.valid d = true ->
  convert_to_json_serializable (PyDatetime d) = Return (PyStr (datetime.isoformat d))
  /\ (forall indent level,
        json.iterencode indent (PyDatetime d) level
        = (pystr.DQ ++ datetime.isoformat d ++ pystr.DQ, None))
  /\ datetime.fromisoformat (datetime.isoformat d) = Some d
  /\ datetime.has_utc_offset (datetime.isoformat d)
     = match datetime.tzinfo d with Some _ => true | None => false end
  /\ (forall d', datetime.fromisoformat (datetime.isoformat d) = Some d' ->
        datetime.utc_instant d' = datetime.utc_instant d).
Proof.
  intros Hv. pose proof (fromisoformat_isoformat d Hv) as R.
  split; [reflexivity|]. split; [intros; apply iterencode_datetime|].
  split; [exact R|]. split.
  - unfold datetime.has_utc_offset. rewrite R. reflexivity.
  - intros d' H. rewrite R in H. injection H as <-. reflexivity.
Qed.

Lemma date_encoding_roundtrip_witness :
  datetime.valid (datetime.naive 2024 2 29 23 59 58 120) = true
  /\ datetime.fromisoformat (datetime.isoformat (datetime.naive 2024 2 29 23 59 58 120))
     = Some (datetime.naive 2024 2 29 23 59 58 120).
Proof.
  split; [reflexivity|].
  apply (date_encoding_roundtrip (datetime.naive 2024 2 29 23 59 58 120) eq_refl).
Defined.


(** C6: the candidates of a directory, the files whose names end in
    [.plist] whatever the case of the letters, are sorted by path before
    they are processed: the list [iter_plist_files] returns is sorted, is a
    rearrangement of the files found, and every path in it ends in the
    extension; the loop gives the outcomes in that order.  Files listed as
    [b.plist], [a.plist], [c.plist] are visited as [a], [b], [c]. *)
Theorem iter_plist_files_sorted (directory : string) (recursive : bool) (w : world) :
  match fst (list_plist_files directory recursive w) with
  | Return found =>
      exists files,
        fst (iter_plist_files directory recursive w) = Return files
        /\ StronglySorted str_le_prop files
        /\ Permutation found files
        /\ Forall (fun f => is_plist_name f = true) files
  | Raise e => fst (iter_plist_files directory recursive w) = Raise e
  end
  /\ (let run := main demo.load (demo.args_dir "abc" None None false) demo.world0 in
      fst (list_plist_files "abc" false demo.world0)
      = Return ["abc/b.plist"; "abc/a.plist"; "abc/c.plist"]
      /\ fst (iter_plist_files "abc" false demo.world0)
         = Return ["abc/a.plist"; "abc/b.plist"; "abc/c.plist"]
      /\ reads (log (snd run)) = ["abc/a.plist"; "abc/b.plist"; "abc/c.plist"]).
Proof.
  split.
  - rewrite iter_plist_files_eq.
    pose proof (list_plist_files_names directory recursive w) as N.
    destruct (list_plist_files directory recursive w) as [[found|e] w1]; cbn [fst] in *;
      [|reflexivity].
    exists (py.sorted found). split; [reflexivity|]. split; [apply sorted_sorted|].
    split; [apply sorted_perm|].
    eapply Permutation_Forall; [apply sorted_perm|exact N].
  - cbv zeta. repeat split; vm_compute; reflexivity.
Qed.

(** C7: for every byte sequence, the empty one included, the JSON encoder
    emits a JSON string that holds its base64 encoding: the characters are
    those of the standard alphabet ([+] and [/], not [-] and [_]) and the
    padding [=], the length is a multiple of four, and decoding the string
    gives the bytes back. *)
Theorem data_encoding_roundtrip (bs : string) :
  convert_to_json_serializable (PyBytes bs) = Return (PyStr (base64.b64encode bs))
  /\ (forall indent level,
        json.iterencode indent (PyBytes bs) level
        = (pystr.DQ ++ base64.b64encode bs ++ pystr.DQ, None))
  /\ base64.all_chars base64.is_b64_char (base64.b64encode bs) = true
  /\ (base64.is_b64_char "-" = false /\ base64.is_b64_char "_" = false)
  /\ (String.length (base64.b64encode bs) mod 4 = 0)%nat
  /\ base64.b64decode (base64.b64encode bs) = Some bs
  /\ base64.b64encode EmptyString = EmptyString.
Proof.
  split; [reflexivity|]. split; [intros; apply iterencode_bytes|].
  split; [apply b64encode_chars|]. split; [split; reflexivity|].
  split; [apply b64encode_length|]. split; [apply b64decode_b64encode|reflexivity].
Qed.



(** C9: computing an output path creates the parent directory of that path
    before the file is opened: when [compute_output_path] returns, the
    directory exists and the only system call made is [makedirs] on it; the
    conversion that follows opens its input after that, and the directory is
    still there when it ends, whether it succeeds or fails; so it is after a
    whole batch that returns. *)
Theorem output_directory_created_first (load : string -> result pyobj)
    (p base : string) (od : option string) (indent : Z) (w w1 : world) (out : string) :
  compute_output_path p base od w = (Return out, w1) ->
  (exists es, os.stat w1 (posixpath.dirname out) = fs.Found (fs.Dir es))
  /\ log w1 = (log w ++ [SysMakedirs (posixpath.dirname out)])%list
  /\ (let w2 := snd (convert_single_plist_to_json load p (Some out) indent false w1) in
      (exists es, os.stat w2 (posixpath.dirname out) = fs.Found (fs.Dir es))
      /\ exists evs,
           log w2 = (log w ++ SysMakedirs (posixpath.dirname out)
                           :: SysOpenRead p :: evs)%list)
  /\ (forall files acc results w',
        In p files ->
        main_loop load files base od indent acc w = (Return results, w') ->
        exists es, os.stat w' (posixpath.dirname out) = fs.Found (fs.Dir es)).
Proof.
  intros C. destruct (compute_output_path_parent _ _ _ _ _ _ C) as (Ho & Hd & Hl).
  split; [exact Hd|]. split; [exact Hl|]. split.
  - cbv zeta. split.
    + apply (stat_dir_evolves w1); [apply forward_convert_single|exact Hd].
    + destruct (convert_single_log load p (Some out) indent false w1) as [evs E].
      exists evs. rewrite E, Hl, <- app_assoc. reflexivity.
  - intros files acc results w' Hin H.
    apply (main_loop_dirs load base od indent files acc results w w' H p out Hin Ho).
Qed.

Lemma output_directory_created_first_witness :
  let w1 := snd (compute_output_path "deep/sub/bad.PLIST" "/w/deep" (Some "/w/out")
                   demo.world0) in
  let r := convert_single_plist_to_json demo.load "deep/sub/bad.PLIST"
             (Some "/w/out/sub/bad.json") 2 false w1 in
  os.stat demo.world0 "/w/out/sub" = fs.ENOENT
  /\ fst r = Return ("deep/sub/bad.PLIST", false, Some MSG_INVALID)
  /\ exists es, os.stat (snd r) (posixpath.dirname "/w/out/sub/bad.json")
                = fs.Found (fs.Dir es).
Proof.
  cbv zeta. split; [reflexivity|]. split; [vm_compute; reflexivity|].
  apply (output_directory_created_first demo.load "deep/sub/bad.PLIST" "/w/deep"
           (Some "/w/out") 2 demo.world0
           (snd (compute_output_path "deep/sub/bad.PLIST" "/w/deep" (Some "/w/out")
                   demo.world0))
           "/w/out/sub/bad.json").
  vm_compute. reflexivity.
Defined.

(** C10: [convert_single_plist_to_json] lets no [Exception] escape: it
    either returns a triple whose first component is its [plist_path]
    argument and whose success flag is [True] exactly when its error is
    [None], or it raises an exception that is no [Exception]. *)
Theorem convert_single_catches_exceptions (load : string -> result pyobj)
    (plist_path : string) (output_path : option string) (indent : Z)
    (stream_output : bool) (w : world) :
  match fst (convert_single_plist_to_json load plist_path output_path indent
               stream_output w) with
  | Return (p, ok, err) => p = plist_path /\ (ok = true <-> err = None)
  | Raise e => is_Exception e = false
  end.
Proof. apply convert_single_total. Qed.

(** * Further properties of plister.py *)

(** ** Order independence *)

Lemma sorted_unique (l1 l2 : list string) :
  StronglySorted str_le_prop l1 -> StronglySorted str_le_prop l2 ->
  Permutation l1 l2 -> l1 = l2.
Proof.
  intros S1. revert l2. induction S1 as [|x r Hs IH Hall]; intros l2 S2 P.
  - apply Permutation_nil in P. congruence.
  - destruct S2 as [|y r2 Hs2 Hall2]; [apply Permutation_sym, Permutation_nil in P; discriminate|].
    assert (Exy : x = y).
    { assert (Hx : In x (y :: r2)) by (apply (Permutation_in _ P); left; reflexivity).
      assert (Hy : In y (x :: r))
        by (apply (Permutation_in _ (Permutation_sym P)); left; reflexivity).
      destruct Hx as [->|Hx]; [reflexivity|]. destruct Hy as [->|Hy]; [reflexivity|].
      apply String.leb_antisym.
      - exact (proj1 (Forall_forall _ _) Hall y Hy).
      - exact (proj1 (Forall_forall _ _) Hall2 x Hx). }
    subst y. f_equal. apply IH; [exact Hs2|]. exact (Permutation_cons_inv P).
Qed.

Lemma sorted_of_permutation (l1 l2 : list string) :
  Permutation l1 l2 -> py.sorted l1 = py.sorted l2.
Proof.
  intros P. apply sorted_unique; try apply sorted_sorted.
  eapply perm_trans; [apply Permutation_sym, sorted_perm|].
  eapply perm_trans; [exact P|apply sorted_perm].
Qed.

(** ** Shallow and recursive listings *)

Lemma walk_dir (top : string) (es : list (string * fs.node)) :
  exists below,
    fs.walk top (fs.Dir es)
    = (top,
       map fst (filter (fun e => fs.is_dir (snd e)) es),
       map fst (filter (fun e => negb (fs.is_dir (snd e))) es)) :: below.
Proof. eexists. cbn [fs.walk]. reflexivity. Qed.

Lemma shallow_candidates (top : string) (es : list (string * fs.node)) :
  map (fun e : string * bool => posixpath.join top (fst e))
    (filter (fun e : string * bool => (snd e && is_plist_name (fst e))%bool)
       (map (fun e : string * fs.node => (fst e, negb (fs.is_dir (snd e)))) es))
  = map (posixpath.join top)
      (filter is_plist_name (map fst (filter (fun e => negb (fs.is_dir (snd e))) es))).
Proof.
  induction es as [|[name n] r IH]; [reflexivity|].
  cbn [map filter fst snd].
  destruct (negb (fs.is_dir n)); cbn [andb map filter fst snd].
  - destruct (is_plist_name name); cbn [map]; rewrite IH; reflexivity.
  - exact IH.
Qed.

Lemma scandir_spec (p : string) (w : world) :
  os.scandir p w
  = (match os.stat w p with
     | fs.Found (fs.Dir es) =>
         Return (map (fun e => (fst e, negb (fs.is_dir (snd e)))) es)
     | fs.Found (fs.File _) | fs.ENOTDIR => Raise (os.enotdir p)
     | fs.ENOENT => Raise (os.enoent p)
     end, logged (SysScandir p) w).
Proof.
  unfold os.scandir, bind, trace. simpl.
  change (os.stat (mkWorld (root w) (cwd w) (stdout w) (stderr w)
                     (log w ++ [SysScandir p])) p) with (os.stat w p).
  destruct (os.stat w p) as [[d|es]| |]; reflexivity.
Qed.



(** X2: the order in which the operating system lists a directory does not
    matter: two listings that find the same files, in whatever order, give
    the same list of candidates. *)
Theorem candidates_independent_of_listing_order (dir : string) (rec : bool)
    (w1 w2 : world) (l1 l2 : list string) :
  fst (list_plist_files dir rec w1) = Return l1 ->
  fst (list_plist_files dir rec w2) = Return l2 ->
  Permutation l1 l2 ->
  fst (iter_plist_files dir rec w1) = fst (iter_plist_files dir rec w2).
Proof.
  intros H1 H2 P. rewrite !iter_plist_files_eq.
  destruct (list_plist_files dir rec w1) as [[a|e] v1]; [|discriminate].
  destruct (list_plist_files dir rec w2) as [[b|e] v2]; [|discriminate].
  cbn [fst] in *. injection H1 as ->. injection H2 as ->.
  rewrite (sorted_of_permutation _ _ P). reflexivity.
Qed.

Lemma candidates_independent_of_listing_order_witness :
  fst (list_plist_files "abc" false demo.world0)
  = Return ["abc/b.plist"; "abc/a.plist"; "abc/c.plist"]
  /\ fst (list_plist_files "abc" false demo.world_shuffled)
     = Return ["abc/a.plist"; "abc/b.plist"; "abc/c.plist"]
  /\ fst (iter_plist_files "abc" false demo.world0)
     = fst (iter_plist_files "abc" false demo.world_shuffled).
Proof.
  split; [reflexivity|]. split; [reflexivity|].
  apply (candidates_independent_of_listing_order "abc" false demo.world0
           demo.world_shuffled ["abc/b.plist"; "abc/a.plist"; "abc/c.plist"]
           ["abc/a.plist"; "abc/b.plist"; "abc/c.plist"]);
    [reflexivity|reflexivity|apply perm_swap].
Defined.

(** X3: whatever the input path, the roots and the state of the file
    system, the path [compute_output_path] returns ends in [.json]. *)
Theorem output_path_ends_in_json (p base : string) (od : option string)
    (w w' : world) (out : string) :
  compute_output_path p base od w = (Return out, w') ->
  pystr.endswith out ".json" = true.
Proof.
  intros C. destruct (compute_output_path_parent _ _ _ _ _ _ C) as (Ho & _).
  revert Ho. unfold output_path_of.
  assert (J : forall d stem, pystr.endswith (posixpath.join d (stem ++ ".json")) ".json" = true).
  { intros d stem. destruct (join_suffix d (stem ++ ".json")) as [x ->].
    rewrite <- append_assoc. apply endswith_app. reflexivity. }
  destruct (pystr.truthy base).
  - cbv beta iota delta [bind get_cwd lift ret fst snd].
    destruct (posixpath.relpath (cwd w) p base) as [rel|e]; [|discriminate].
    intros [= <-]. apply J.
  - cbv beta iota delta [bind ret fst snd]. intros [= <-]. apply J.
Qed.

Lemma output_path_ends_in_json_witness :
  fst (compute_output_path "foo/bar/baz.plist" "foo" (Some "out") demo.world0)
  = Return "out/bar/baz.json"
  /\ pystr.endswith "out/bar/baz.json" ".json" = true.
Proof.
  split; [vm_compute; reflexivity|].
  apply (output_path_ends_in_json "foo/bar/baz.plist" "foo" (Some "out") demo.world0
           (snd (compute_output_path "foo/bar/baz.plist" "foo" (Some "out") demo.world0))).
  vm_compute. reflexivity.
Defined.

(** X4: [ensure_directory] on a path that exists: on a directory it
    succeeds and changes nothing but the log; on a file it raises
    [FileExistsError] and changes nothing either. *)
Theorem ensure_directory_existing (path : string) (w : world) (n : fs.node) :
  os.stat w path = fs.Found n ->
  ensure_directory path w
  = (match n with
     | fs.Dir _ => Return tt
     | fs.File _ => Raise (os.eexist path)
     end, logged (SysMakedirs path) w).
Proof.
  unfold ensure_directory. rewrite makedirs_spec. unfold os.stat.
  destruct (os.resolve w path) as [comps|]; [|discriminate]. intros H.
  destruct n as [d|es].
  - assert (E : fs.mkdir_p (root w) comps = None).
    { destruct (fs.mkdir_p (root w) comps) as [r|] eqn:E; [|reflexivity].
      destruct (mkdir_p_files _ _ _ E comps d) as [_ F].
      destruct (mkdir_p_target _ _ _ E) as [es' T].
      specialize (F H). unfold file_at in F. congruence. }
    rewrite E, H. reflexivity.
  - rewrite (mkdir_p_existing comps (root w)) by (exists es; exact H).
    destruct w. reflexivity.
Qed.

Lemma ensure_directory_existing_witness :
  fst (ensure_directory "/w/foo" demo.world0) = Return tt
  /\ fst (ensure_directory "/w/blocked" demo.world0)
     = Raise (FileExistsError "[Errno 17] File exists: '/w/blocked'").
Proof.
  split.
  - rewrite (ensure_directory_existing "/w/foo" demo.world0
               (fs.Dir [("baz0.plist", fs.File "<plist:ok>");
                        ("bar", fs.Dir [("baz.plist", fs.File "<plist:ok>")])]) eq_refl).
    reflexivity.
  - rewrite (ensure_directory_existing "/w/blocked" demo.world0
               (fs.File "a file, not a directory") eq_refl).
    reflexivity.
Defined.


Lemma json_dump_stdout_spec (obj : pyobj) (indent : Z) (w : world) :
  json_dump_stdout obj indent w
  = (match snd (json.iterencode indent obj 0) with
     | None => Return tt
     | Some e => Raise e
     end,
     mkWorld (root w) (cwd w) (stdout w ++ fst (json.iterencode indent obj 0))
       (stderr w) (log w)).
Proof.
  unfold json_dump_stdout. destruct (json.iterencode indent obj 0) as [text [e|]];
    reflexivity.
Qed.

Lemma convert_single_stdout_eq (load : string -> result pyobj) (p : string)
    (out : option string) (indent : Z) (stream : bool) (w : world) :
  (stream || negb (py.opt_truthy out))%bool = true ->
  convert_single_plist_to_json load p out indent stream w
  = match load_plist load p w with
    | (Raise e, w1) => (read_failure p e, w1)
    | (Return obj, w1) =>
        match json_dump_stdout obj indent w1 with
        | (Raise e, w2) => (json_failure p e, w2)
        | (Return _, w2) =>
            (Return (p, true, None),
             mkWorld (root w2) (cwd w2) (stdout w2 ++ pystr.LF) (stderr w2) (log w2))
        end
    end.
Proof.
  intros Hs. unfold convert_single_plist_to_json, bind, py.try_except. rewrite Hs.
  destruct (load_plist load p w) as [[obj|e] w1].
  - cbn [ret]. destruct (json_dump_stdout obj indent w1) as [[u|e] w2].
    + reflexivity.
    + unfold json_failure. destruct (is_Exception e); reflexivity.
  - unfold read_failure. destruct e; reflexivity.
Qed.

(** X6: a conversion to the standard output creates and writes no file;
    its only system call opens the input.  On success the standard output
    receives the complete JSON text and a line feed; when a value cannot be
    serialised it has received the text before that value, and no line feed. *)
Theorem stdout_sink_touches_no_file (load : string -> result pyobj) (p : string)
    (out : option string) (indent : Z) (stream : bool) (w : world) :
  (stream || negb (py.opt_truthy out))%bool = true ->
  let r := fst (convert_single_plist_to_json load p out indent stream w) in
  let w' := snd (convert_single_plist_to_json load p out indent stream w) in
  root w' = root w
  /\ log w' = (log w ++ [SysOpenRead p])%list
  /\ (forall err, r = Return (p, true, err) ->
        exists obj, fst (load_plist load p w) = Return obj
          /\ snd (json.iterencode indent obj 0) = None
          /\ stdout w' = stdout w ++ fst (json.iterencode indent obj 0) ++ pystr.LF)
  /\ (forall obj e, fst (load_plist load p w) = Return obj ->
        snd (json.iterencode indent obj 0) = Some e -> is_Exception e = true ->
        r = Return (p, false, Some (MSG_JSON ++ exn_str e))
        /\ stdout w' = stdout w ++ fst (json.iterencode indent obj 0)).
Proof.
  intros Hs. cbv zeta. rewrite (convert_single_stdout_eq _ _ _ _ _ _ Hs).
  rewrite load_plist_spec.
  match goal with |- context [match ?x with Return _ => _ | Raise _ => _ end] =>
    destruct x as [obj|e0] end; cbn [fst snd].
  - rewrite json_dump_stdout_spec.
    destruct (snd (json.iterencode indent obj 0)) as [e|] eqn:E;
      cbn [fst snd root log stdout logged].
    + split; [reflexivity|]. split; [reflexivity|]. split.
      * intros err H. exfalso. exact (json_failure_flag _ _ _ _ H).
      * intros obj' e' Ho He' He. injection Ho as <-. rewrite E in He'.
        injection He' as <-. unfold json_failure. rewrite He. split; reflexivity.
    + split; [reflexivity|]. split; [reflexivity|]. split.
      * intros err _. exists obj. split; [reflexivity|]. split; [exact E|].
        apply append_assoc.
      * intros obj' e' Ho He'. injection Ho as <-. rewrite E in He'. discriminate.
  - split; [reflexivity|]. split; [reflexivity|]. split.
    + intros err H. exfalso. exact (read_failure_flag _ _ _ _ H).
    + discriminate.
Qed.

Lemma stdout_sink_touches_no_file_witness :
  root (snd (convert_single_plist_to_json demo.load "/w/pair/good.plist" None 2 true
               demo.world0))
  = root demo.world0.
Proof.
  apply (stdout_sink_touches_no_file demo.load "/w/pair/good.plist" None 2 true
           demo.world0 eq_refl).
Defined.

Section MainStatus.
Variable load : string -> result pyobj.

Lemma exists_run (p : string) (w : world) :
  os.exists_ p w = (fst (os.exists_ p w), w).
Proof. reflexivity. Qed.

Lemma isdir_run (p : string) (w : world) :
  os.isdir p w = (fst (os.isdir p w), w).
Proof. reflexivity. Qed.

Lemma main_not_dir (a : args) (w : world) :
  fst (os.exists_ (plist_file a) w) = Return true ->
  fst (os.isdir (plist_file a) w) = Return false ->
  main load a w = main_file load a w.
Proof.
  intros He Hd. unfold main. unfold bind at 1. rewrite exists_run, He. cbn [negb].
  unfold bind at 1. rewrite isdir_run, Hd. reflexivity.
Qed.



End MainStatus.



Section BatchStatus.
Variable load : string -> result pyobj.

Lemma eprint_failures_ok (l : list (string * option string)) (w : world) :
  fst (eprint_failures l w) = Return tt.
Proof.
  revert w. induction l as [|[p e] r IH]; intros w; [reflexivity|].
  cbn [eprint_failures]. unfold bind. rewrite eprint_run. apply IH.
Qed.

Lemma no_failures_iff (results : list outcome) :
  map (fun r : outcome => (fst (fst r), snd r))
    (filter (fun r : outcome => negb (snd (fst r))) results) = []
  <-> forallb (fun r : outcome => snd (fst r)) results = true.
Proof.
  induction results as [|[[p ok] err] r IH]; [split; reflexivity|].
  cbn [filter forallb fst snd]. destruct ok; cbn [negb andb map].
  - exact IH.
  - split; discriminate.
Qed.

(** X9: a directory without candidates: the run ends with status 1 after
    the listing; nothing is read, created or written, and the standard
    output stays empty of any report. *)
Theorem empty_directory_exit_status (a : args) (w : world) :
  fst (os.isdir (plist_file a) w) = Return true ->
  fst (iter_plist_files (plist_file a) (recursive a) w) = Return [] ->
  fst (main load a w) = Return 1
  /\ root (snd (main load a w)) = root w
  /\ stdout (snd (main load a w)) = stdout w
  /\ reads (log (snd (main load a w))) = reads (log w).
Proof.
  intros Hd Hi.
  destruct (list_plist_files_effect (plist_file a) (recursive a) w)
    as (Hr & Hc & Hso & Hse & evs & Hlog & Hev).
  assert (E : exists msg,
             main load a w
             = (Return 1,
                let w1 := snd (list_plist_files (plist_file a) (recursive a) w) in
                mkWorld (root w1) (cwd w1) (stdout w1) (stderr w1 ++ msg) (log w1))).
  { rewrite (main_isdir load a w Hd). unfold main_directory. unfold bind at 1.
    rewrite iter_plist_files_eq in *.
    destruct (list_plist_files (plist_file a) (recursive a) w) as [[l|e] w1];
      cbn [fst snd] in *; [|discriminate].
    injection Hi as ->. unfold bind. rewrite eprint_run. eexists. reflexivity. }
  destruct E as [msg ->]. cbn [fst snd root stdout log].
  split; [reflexivity|]. split; [assumption|]. split; [assumption|].
  rewrite Hlog. clear - Hev. induction (log w) as [|s l IH]; cbn [app].
  - induction evs as [|s r IH]; [reflexivity|].
    cbn [forallb] in Hev. apply andb_true_iff in Hev. destruct Hev as [Hs Hr].
    destruct s; try discriminate. cbn [reads]. apply IH. exact Hr.
  - destruct s; cbn [reads]; rewrite IH; reflexivity.
Qed.

(** X10: the exit status of a batch: once the candidates are listed and the
    loop has returned its outcomes, the status is 0 when every outcome is a
    success and 3 when at least one is a failure; an exception of the loop
    is the exception of the run. *)
Theorem batch_exit_status (a : args) (w w1 : world) (files : list string) :
  fst (os.isdir (plist_file a) w) = Return true ->
  (py.opt_truthy (output a) && negb (py.opt_truthy (output_dir a)))%bool = false ->
  iter_plist_files (plist_file a) (recursive a) w = (Return files, w1) ->
  files <> [] ->
  let base_dir := posixpath.abspath (cwd w1) (plist_file a) in
  let od := if py.opt_truthy (output_dir a)
            then Some (posixpath.abspath (cwd w1) (py.opt_str (output_dir a)))
            else output_dir a in
  let total := Z.of_nat (List.length files) in
  let w2 := snd (print ("Conversion de " ++ pystr.of_int total ++ " fichier"
                        ++ plural total ++ " .plist depuis " ++ plist_file a) w1) in
  match main_loop load files base_dir od (indent a) [] w2 with
  | (Return results, _) =>
      fst (main load a w)
      = Return (if forallb (fun r : outcome => snd (fst r)) results then 0 else 3)
  | (Raise e, _) => fst (main load a w) = Raise e
  end.
Proof.
  intros Hd Hg Hi Hne. cbv zeta.
  match goal with |- match ?m with _ => _ end =>
    assert (E : fst (main load a w)
                = match m with
                  | (Return results, _) =>
                      Return (if forallb (fun r : outcome => snd (fst r)) results
                              then 0 else 3)
                  | (Raise e, _) => Raise e
                  end);
    [|destruct m as [[results|e] w3]; exact E]
  end.
  rewrite (main_isdir load a w Hd).
  unfold main_directory. unfold bind at 1. rewrite Hi.
  destruct files as [|f rest]; [congruence|]. rewrite Hg.
  unfold bind at 1. unfold get_cwd at 1. unfold bind at 1.
  unfold print at 1, write_stdout at 1. cbn [fst snd].
  unfold print, write_stdout. cbn [snd]. unfold bind at 1.
  match goal with |- context [main_loop load ?fs ?b ?o ?i ?acc ?w0] =>
    destruct (main_loop load fs b o i acc w0) as [[results|e] w3] end;
    [|reflexivity].
  unfold bind at 1. cbn [fst snd].
  pose proof (no_failures_iff results) as N.
  destruct (map (fun r : outcome => (fst (fst r), snd r))
              (filter (fun r : outcome => negb (snd (fst r))) results)) as [|x l] eqn:F.
  - rewrite (proj1 N eq_refl). reflexivity.
  - destruct (forallb (fun r : outcome => snd (fst r)) results);
      [destruct N as [_ N]; discriminate (N eq_refl)|].
    unfold bind at 1. rewrite eprint_run. unfold bind at 1.
    match goal with |- context [eprint_failures ?l0 ?w0] =>
      pose proof (eprint_failures_ok l0 w0) as Q;
      destruct (eprint_failures l0 w0) as [[u|e] w4] end; [reflexivity|discriminate].
Qed.

End BatchStatus.

Lemma empty_directory_exit_status_witness :
  fst (main demo.load (demo.args_dir "deep" None None false) demo.world0) = Return 1.
Proof.
  apply (empty_directory_exit_status demo.load (demo.args_dir "deep" None None false)
           demo.world0); reflexivity.
Defined.

Lemma batch_exit_status_witness :
  fst (main demo.load (demo.args_dir "pair" None (Some "out") false) demo.world0)
  = Return 3.
Proof.
  pose proof (batch_exit_status demo.load (demo.args_dir "pair" None (Some "out") false)
                demo.world0
                (snd (iter_plist_files "pair" false demo.world0))
                ["pair/bad.plist"; "pair/good.plist"]
                eq_refl eq_refl eq_refl ltac:(discriminate)) as H.
  cbv zeta in H.
  match type of H with
  | match ?m with _ => _ end =>
      let v := eval vm_compute in m in change m with v in H
  end.
  cbv iota beta in H. exact H.
Defined.

(** ** Values that cannot be written as JSON *)

Lemma pyobj_ind_nested (P : pyobj -> Prop) :
  (forall s, P (PyStr s)) -> (forall z, P (PyInt z)) -> (forall r, P (PyFloat r)) ->
  (forall b, P (PyBool b)) -> (forall d, P (PyDatetime d)) -> (forall b, P (PyBytes b)) ->
  (forall l, Forall P l -> P (PyList l)) ->
  (forall d, Forall (fun kv => P (snd kv)) d -> P (PyDict d)) ->
  (forall n, P (PyUID n)) ->
  forall o, P o.
Proof.
  intros Hs Hi Hf Hb Hd Hy Hl Hm Hu. fix IH 1. intros o.
  destruct o as [s|z|r|b|d|b|l|d|n];
    [apply Hs|apply Hi|apply Hf|apply Hb|apply Hd|apply Hy| | |apply Hu].
  - apply Hl. induction l as [|x r IHl]; constructor; [apply IH|exact IHl].
  - apply Hm. induction d as [|[k x] r IHd]; constructor; [apply IH|exact IHd].
Qed.

Lemma snd_then (a b : json.enc) :
  snd (json.then_ a b) = match snd a with Some e => Some e | None => snd b end.
Proof. unfold json.then_. destruct a as [t [e|]]; reflexivity. Qed.

Lemma iterencode_list (indent : Z) (v : pyobj) (l : list pyobj) (level : nat) :
  json.iterencode indent (PyList (v :: l)) level
  = json.then_ (json.emit ("[" ++ json.newline_indent indent (S level)))
      (json.then_
         (encode_items (fun x => json.iterencode indent x (S level))
            ("," ++ json.newline_indent indent (S level)) true (v :: l))
         (json.emit (json.newline_indent indent level ++ "]"))).
Proof. reflexivity. Qed.

Lemma iterencode_dict (indent : Z) (kv : string * pyobj) (l : list (string * pyobj))
    (level : nat) :
  json.iterencode indent (PyDict (kv :: l)) level
  = json.then_ (json.emit ("{" ++ json.newline_indent indent (S level)))
      (json.then_
         (encode_pairs (fun x => json.iterencode indent x (S level))
            ("," ++ json.newline_indent indent (S level)) true (kv :: l))
         (json.emit (json.newline_indent indent level ++ "}"))).
Proof. reflexivity. Qed.

Lemma snd_encode_items (f : pyobj -> json.enc) (sep : string) (e : exn)
    (l : list pyobj) (first : bool) :
  Forall (fun v => snd (f v) = if has_uid v then Some e else None) l ->
  snd (encode_items f sep first l) = if existsb has_uid l then Some e else None.
Proof.
  intros H. revert first. induction H as [|v r Hv Hr IH]; intros first; [reflexivity|].
  cbn [encode_items existsb]. rewrite !snd_then, Hv, (IH false).
  destruct first; cbn [json.emit snd]; destruct (has_uid v); reflexivity.
Qed.

Lemma snd_encode_pairs (f : pyobj -> json.enc) (sep : string) (e : exn)
    (l : list (string * pyobj)) (first : bool) :
  Forall (fun kv => snd (f (snd kv)) = if has_uid (snd kv) then Some e else None) l ->
  snd (encode_pairs f sep first l)
  = if existsb (fun kv => has_uid (snd kv)) l then Some e else None.
Proof.
  intros H. revert first. induction H as [|[k v] r Hv Hr IH]; intros first; [reflexivity|].
  cbn [encode_pairs existsb snd] in *. rewrite !snd_then, Hv, (IH false).
  destruct first; cbn [json.emit snd]; destruct (has_uid v); reflexivity.
Qed.


(** ** What a run reads *)

Lemma reads_app (l1 l2 : list syscall) : reads (l1 ++ l2) = (reads l1 ++ reads l2)%list.
Proof.
  induction l1 as [|s r IH]; [reflexivity|].
  destruct s; cbn [app reads]; rewrite IH; reflexivity.
Qed.

Lemma reads_nothing_ret {A} (a : A) : reads_nothing (ret a).
Proof. intros w. reflexivity. Qed.

Lemma reads_nothing_raise {A} (e : exn) : reads_nothing (@raise A e).
Proof. intros w. reflexivity. Qed.

Lemma reads_nothing_lift {A} (r : result A) : reads_nothing (lift r).
Proof. intros w. reflexivity. Qed.

Lemma reads_nothing_bind {A B} (m : M A) (k : A -> M B) :
  reads_nothing m -> (forall a, reads_nothing (k a)) -> reads_nothing (bind m k).
Proof.
  intros Hm Hk w. unfold bind. specialize (Hm w).
  destruct (m w) as [[a|e] w1]; cbn [snd] in *; [|exact Hm].
  rewrite Hk. exact Hm.
Qed.

Lemma reads_nothing_try {A} (m : M A) (h : exn -> option (M A)) :
  reads_nothing m -> (forall e k, h e = Some k -> reads_nothing k) ->
  reads_nothing (py.try_except m h).
Proof.
  intros Hm Hh w. unfold py.try_except. specialize (Hm w).
  destruct (m w) as [[a|e] w1]; cbn [snd] in *; [exact Hm|].
  destruct (h e) as [k|] eqn:E; [|exact Hm].
  rewrite (Hh _ _ E). exact Hm.
Qed.

Lemma reads_nothing_write_stdout (s : string) : reads_nothing (write_stdout s).
Proof. intros w. reflexivity. Qed.

Lemma reads_nothing_get_cwd : reads_nothing get_cwd.
Proof. intros w. reflexivity. Qed.

Lemma reads_nothing_makedirs (p : string) : reads_nothing (os.makedirs p).
Proof.
  intros w. rewrite makedirs_spec.
  destruct (os.resolve w p) as [comps|]; [destruct (fs.mkdir_p (root w) comps)|];
    cbn [snd log set_root logged]; rewrite reads_app; cbn [reads]; apply app_nil_r.
Qed.

Lemma reads_nothing_open_write (p : string) : reads_nothing (os.open_write p).
Proof.
  intros w. rewrite open_write_spec.
  destruct (os.resolve w p) as [comps|];
    [destruct (fs.lookup (root w) comps) as [[d|es]| |];
     try destruct (fs.update (root w) comps _)|];
    cbn [snd log set_root logged]; rewrite reads_app; cbn [reads]; apply app_nil_r.
Qed.

Lemma reads_nothing_append_file (p text : string) : reads_nothing (os.append_file p text).
Proof.
  intros w. rewrite append_file_spec.
  destruct (os.resolve w p) as [comps|]; [destruct (fs.update (root w) comps _)|];
    reflexivity.
Qed.

Create HintDb quiet.
Global Hint Resolve reads_nothing_ret reads_nothing_raise reads_nothing_lift
  reads_nothing_write_stdout reads_nothing_get_cwd reads_nothing_makedirs
  reads_nothing_open_write reads_nothing_append_file : quiet.

Ltac quiet_tac :=
  repeat first
    [ progress auto with quiet
    | apply reads_nothing_bind; [|intros ?]
    | match goal with
      | |- reads_nothing (if ?b then _ else _) => destruct b
      | |- reads_nothing (match ?x with _ => _ end) => destruct x
      | |- reads_nothing (let '(_, _) := ?x in _) => destruct x
      end ].

Lemma reads_nothing_compute_output_path (p base : string) (od : option string) :
  reads_nothing (compute_output_path p base od).
Proof. unfold compute_output_path, output_path_of, ensure_directory. quiet_tac. Qed.

Section ReadsFacts.
Variable load : string -> result pyobj.

(** A conversion opens its input and no other file. *)
Lemma convert_single_reads (p : string) (out : option string) (indent : Z)
    (stream : bool) (w : world) :
  reads (log (snd (convert_single_plist_to_json load p out indent stream w)))
  = (reads (log w) ++ [p])%list.
Proof.
  assert (S2 : forall obj,
             reads_nothing
               (py.try_except
                  ((if (stream || negb (py.opt_truthy out))%bool
                    then json_dump_stdout obj indent ;; write_stdout pystr.LF
                    else ensure_directory (posixpath.dirname (py.opt_str out)) ;;
                         json_dump_file (py.opt_str out) obj indent) ;;
                   ret (p, true, None))
                  (fun e => if is_Exception e
                            then Some (ret (p, false, Some (MSG_JSON ++ exn_str e)))
                            else None))).
  { intros obj. apply reads_nothing_try.
    - unfold ensure_directory, json_dump_stdout, json_dump_file. quiet_tac.
    - intros e k H. destruct (is_Exception e); [|discriminate].
      injection H as <-. auto with quiet. }
  unfold convert_single_plist_to_json. unfold bind at 1. unfold py.try_except at 1.
  unfold bind at 1. rewrite load_plist_spec.
  match goal with |- context [match ?x with Return _ => _ | Raise _ => _ end] =>
    destruct x as [obj|e] end.
  - cbn [ret]. rewrite (S2 obj). cbn [log logged]. rewrite reads_app. reflexivity.
  - destruct e; cbn [is_Exception ret snd log logged];
      rewrite reads_app; reflexivity.
Qed.

(** X12: a batch that returns has opened for reading exactly its
    candidates, each once, in the order of the list, and no other file. *)
Theorem batch_reads_candidates_once (files : list string) (base : string)
    (od : option string) (indent : Z) (acc results : list outcome) (w w' : world) :
  main_loop load files base od indent acc w = (Return results, w') ->
  reads (log w') = (reads (log w) ++ files)%list.
Proof.
  revert acc w. induction files as [|f rest IH]; intros acc w H.
  - cbn [main_loop ret] in H. injection H as _ <-. symmetry. apply app_nil_r.
  - rewrite main_loop_cons in H.
    pose proof (reads_nothing_compute_output_path f base od w) as R0.
    destruct (compute_output_path f base od w) as [[out|e] w1]; [|discriminate].
    pose proof (convert_single_reads f (Some out) indent false w1) as R1.
    destruct (convert_single_plist_to_json load f (Some out) indent false w1)
      as [[r|e] w2]; [|discriminate].
    cbn [snd] in *. rewrite (IH _ _ H), R1, R0, <- app_assoc. reflexivity.
Qed.

End ReadsFacts.

Lemma batch_reads_candidates_once_witness :
  reads (log (snd (main_loop demo.load ["pair/bad.plist"; "pair/good.plist"] "/w/pair"
                     None 2 [] demo.world0)))
  = (reads (log demo.world0) ++ ["pair/bad.plist"; "pair/good.plist"])%list.
Proof.
  apply (batch_reads_candidates_once demo.load ["pair/bad.plist"; "pair/good.plist"]
           "/w/pair" None 2 []
           (match fst (main_loop demo.load ["pair/bad.plist"; "pair/good.plist"]
                         "/w/pair" None 2 [] demo.world0) with
            | Return r => r
            | Raise _ => []
            end)).
  vm_compute. reflexivity.
Defined.
